(** * dreamer: the file providers (versioned project store)

    A shallow embedding of [dreamer/providers/utils.py],
    [dreamer/providers/local.py] and [dreamer/providers/aws.py].

    The providers are stateful Python objects that talk to a local
    filesystem and, for the AWS provider, to an S3 bucket.  Both are
    modelled as explicit state; a provider method becomes a function in a
    state-and-exception monad.  A raised exception does not roll back the
    effects that happened before it, so a failed computation still
    returns the state it reached. *)

From Stdlib Require Import ZArith Ascii String List Bool Lia.
From stdpp Require Import base option list gmap sets strings sorting.

Open Scope string_scope.

(** ** Python exceptions *)

(** The exception classes the providers raise or let through.
    [ClientError] and [EndpointConnectionError] are botocore's: the first
    is what S3 answers (its [code] is the HTTP status, "404" for a
    missing key, "403" for a refused one), the second stands for the
    failures of the connection itself, which are not [ClientError]s. *)
Inductive exn_kind :=
| DreamerException (msg : string)
| ProgrammerError (msg : string)
| ValueError (msg : string)
| IndexError
| FileNotFoundError (what : string)
| FileExistsError (what : string)
| NotADirectoryError (what : string)
| IsADirectoryError (what : string)
| OSError (what : string)
| JSONDecodeError
| ClientError (code : string)
| EndpointConnectionError.

(** An exception with its [__cause__] (set by [raise ... from e]). *)
Record exn := Exc { kind : exn_kind; cause : option exn_kind }.

Global Instance exn_kind_eq_dec : EqDecision exn_kind.
Proof. solve_decision. Defined.

Global Instance exn_eq_dec : EqDecision exn.
Proof. solve_decision. Defined.

Definition is_ClientError (e : exn) : bool :=
  match kind e with ClientError _ => true | _ => false end.

Definition is_FileNotFoundError (e : exn) : bool :=
  match kind e with FileNotFoundError _ => true | _ => false end.

(** ** The state-and-exception monad *)

Definition M (S A : Type) : Type := S -> (exn + A) * S.

Global Instance M_ret {S} : MRet (M S) :=
  fun A (a : A) (s : S) => (inr a, s).

Global Instance M_bind {S} : MBind (M S) :=
  fun A B (f : A -> M S B) (m : M S A) (s : S) =>
    match m s with
    | (inl e, s') => (inl e, s')
    | (inr a, s') => f a s'
    end.

Definition throw {S A} (e : exn) : M S A := fun s => (inl e, s).

Definition raise {S A} (k : exn_kind) : M S A := throw (Exc k None).

(** [raise k from e] *)
Definition raise_from {S A} (k : exn_kind) (e : exn) : M S A :=
  throw (Exc k (Some (kind e))).

(** [try: m except <sel>: h]: the handler runs in the state the body
    had reached when it raised. *)
Definition try_except {S A} (m : M S A) (sel : exn -> bool) (h : exn -> M S A)
  : M S A :=
  fun s =>
    match m s with
    | (inl e, s') => if sel e then h e s' else (inl e, s')
    | r => r
    end.

Definition gets {S A} (f : S -> A) : M S A := fun s => (inr (f s), s).

Definition modify {S} (f : S -> S) : M S unit := fun s => (inr tt, f s).

(** Lift a pure step on a component of the state: one that reads it and
    may fail, and one that replaces it and may fail. *)
Definition lift_read {S T A} (get : S -> T) (f : T -> exn_kind + A) : M S A :=
  fun s =>
    match f (get s) with
    | inl k => (inl (Exc k None), s)
    | inr a => (inr a, s)
    end.

Definition lift_step {S T} (get : S -> T) (set : T -> S -> S)
    (f : T -> exn_kind + T) : M S unit :=
  fun s =>
    match f (get s) with
    | inl k => (inl (Exc k None), s)
    | inr t => (inr tt, set t s)
    end.

(** [for x in l: body x] *)
Fixpoint for_each {S A} (l : list A) (body : A -> M S unit) : M S unit :=
  match l with
  | [] => mret tt
  | x :: l' => body x ;; for_each l' body
  end.

(** ** Strings *)

(** [sep.join(l)] *)
Definition join (sep : string) (l : list string) : string := String.concat sep l.

(** [s.startswith(p)] *)
Definition startswith (p s : string) : bool := String.prefix p s.

(** [s[n:]] *)
Fixpoint drop_str (n : nat) (s : string) : string :=
  match n, s with
  | O, _ => s
  | S n', String _ s' => drop_str n' s'
  | S _, EmptyString => EmptyString
  end.

(** [s.split(c, maxsplit)] for a one-character separator: at most
    [maxsplit] cuts, the rest of the string is the last part. *)
Fixpoint split_max (c : ascii) (maxsplit : nat) (s : string) : list string :=
  match s with
  | EmptyString => [EmptyString]
  | String a s' =>
      if Ascii.eqb a c then
        match maxsplit with
        | O => [s]
        | S k => EmptyString :: split_max c k s'
        end
      else
        match split_max c maxsplit s' with
        | [] => [String a EmptyString]
        | w :: ws => String a w :: ws
        end
  end.

(** Python's truth value of an [Optional[str]]: [None] and the empty
    string are false. *)
Definition truthy (o : option string) : bool :=
  match o with
  | Some EmptyString => false
  | Some _ => true
  | None => false
  end.

(** [s.split(c)], with no limit on the cuts. *)
Fixpoint split_all (c : ascii) (s : string) : list string :=
  match s with
  | EmptyString => [EmptyString]
  | String a s' =>
      if Ascii.eqb a c then EmptyString :: split_all c s'
      else
        match split_all c s' with
        | [] => [String a EmptyString]
        | w :: ws => String a w :: ws
        end
  end.

(** The order of Python on strings, and [sorted(l)] for a list of
    strings. *)
Definition str_le (a b : string) : Prop := String.leb a b = true.

Global Instance str_le_dec : RelDecision str_le.
Proof. intros a b. unfold str_le. apply _. Defined.

Definition sorted (l : list string) : list string := merge_sort str_le l.

(** No character of [s] is a slash. *)
Fixpoint slash_free (s : string) : bool :=
  match s with
  | EmptyString => true
  | String a s' => negb (Ascii.eqb a "/") && slash_free s'
  end.

(** No character of [s] is the null byte. *)
Fixpoint nul_free (s : string) : bool :=
  match s with
  | EmptyString => true
  | String a s' => negb (Ascii.eqb a zero) && nul_free s'
  end.

(** A name that is one component of a path: not empty, neither [.] nor
    [..], without a slash or a null byte, and short enough for the name
    of a file (also with the suffix a download in progress adds to it).
    For such a name [d / name] is the entry [name] of the directory
    [d], for [pathlib] and for the filesystem alike. *)
Definition plain (name : string) : bool :=
  negb (String.eqb name EmptyString) && negb (String.eqb name ".")
  && negb (String.eqb name "..") && slash_free name && nul_free name
  && (String.length name <=? 200)%nat.

(** The number of slashes in a string. *)
Fixpoint slashes (s : string) : nat :=
  match s with
  | EmptyString => 0
  | String a s' => (if Ascii.eqb a "/" then 1 else 0) + slashes s'
  end.

(** ** The local filesystem *)

(** What a file holds.  A body is kept decoded: [MetaJson v a] is the
    text [json.dump] writes for [{'version': v, 'author': a}], the
    record [sync_project] uploads; [Raw b] stands for the bytes [b]
    when they are not a JSON document (the empty file [touch] makes is
    one).  A body that is JSON but not the text of such a record is not
    represented: nothing is stated here about a record of that kind. *)
Inductive content :=
| Raw (bytes : string)
| MetaJson (version : Z) (author : string).

Global Instance content_eq_dec : EqDecision content.
Proof. solve_decision. Defined.

Inductive node :=
| Dir
| File (c : content).

Global Instance node_eq_dec : EqDecision node.
Proof. solve_decision. Defined.

(** A [pathlib.Path], innermost component first: [base / m / p] is
    [p :: m :: base], and the parent of a path is its tail.  The empty
    path is the root.  A component is the name of one entry: [d / name]
    is taken as [name :: d], which is the path [pathlib] builds and the
    filesystem resolves when [name] is [plain]. *)
Abbreviation path := (list string).

Abbreviation filesystem := (gmap (list string) node).

Definition parent (p : path) : path := tail p.

(** [str(p)] *)
Definition path_str (p : path) : string := "/" ++ join "/" (rev p).

Definition node_at (fs : filesystem) (p : path) : option node :=
  match p with
  | [] => Some Dir
  | _ => fs !! p
  end.

(** [p.exists()] and [p.is_dir()] *)
Definition path_exists (fs : filesystem) (p : path) : bool :=
  match node_at fs p with Some _ => true | None => false end.

Definition is_dir (fs : filesystem) (p : path) : bool :=
  match node_at fs p with Some Dir => true | _ => false end.

(** Creating the entry [p] with node [n] needs the parent to be a
    directory: the errors of [open(2)] and [mkdir(2)]. *)
Definition create (fs : filesystem) (p : path) (n : node)
  : exn_kind + filesystem :=
  match node_at fs (parent p) with
  | Some Dir => inr (<[p := n]> fs)
  | Some (File _) => inl (NotADirectoryError (path_str p))
  | None => inl (FileNotFoundError (path_str p))
  end.

(** [os.mkdir(p)] *)
Definition os_mkdir (fs : filesystem) (p : path) : exn_kind + filesystem :=
  match node_at fs p with
  | Some _ => inl (FileExistsError (path_str p))
  | None => create fs p Dir
  end.

(** [p.mkdir(parents=False, exist_ok=exist_ok)]: a missing parent is
    re-raised; any other [OSError] is forgiven when [exist_ok] is set and
    the path is a directory. *)
Definition mkdir (exist_ok : bool) (fs : filesystem) (p : path)
  : exn_kind + filesystem :=
  match os_mkdir fs p with
  | inr fs' => inr fs'
  | inl (FileNotFoundError w) => inl (FileNotFoundError w)
  | inl e => if exist_ok && is_dir fs p then inr fs else inl e
  end.

(** [p.mkdir(parents=True, exist_ok=exist_ok)]: on a missing parent,
    make the parent the same way and try again without [parents]. *)
Fixpoint mkdir_parents (exist_ok : bool) (fs : filesystem) (p : path)
  : exn_kind + filesystem :=
  match os_mkdir fs p with
  | inr fs' => inr fs'
  | inl (FileNotFoundError w) =>
      match p with
      | [] => inl (FileNotFoundError w)
      | _ :: q =>
          match mkdir_parents true fs q with
          | inl e => inl e
          | inr fs' => mkdir exist_ok fs' p
          end
      end
  | inl e => if exist_ok && is_dir fs p then inr fs else inl e
  end.

(** [p.touch()] *)
Definition touch (fs : filesystem) (p : path) : exn_kind + filesystem :=
  match node_at fs p with
  | Some _ => inr fs
  | None => create fs p (File (Raw EmptyString))
  end.

(** Writing a whole file: [open(p, 'w')] and the writes to it. *)
Definition write_file (fs : filesystem) (p : path) (c : content)
  : exn_kind + filesystem :=
  match node_at fs p with
  | Some Dir => inl (IsADirectoryError (path_str p))
  | _ => create fs p (File c)
  end.

(** Reading a whole file: [open(p, 'rb')] and the reads from it. *)
Definition read_file (fs : filesystem) (p : path) : exn_kind + content :=
  match node_at fs p with
  | Some (File c) => inr c
  | Some Dir => inl (IsADirectoryError (path_str p))
  | None => inl (FileNotFoundError (path_str p))
  end.

(** [p.unlink()] *)
Definition unlink (fs : filesystem) (p : path) : exn_kind + filesystem :=
  match node_at fs p with
  | Some (File _) => inr (delete p fs)
  | Some Dir => inl (IsADirectoryError (path_str p))
  | None => inl (FileNotFoundError (path_str p))
  end.

(** The entries at or below [p]. *)
Definition below (p : path) (q : path) : bool := bool_decide (p `suffix_of` q).

Definition children (fs : filesystem) (p : path) : list string :=
  omap (fun q => match q with
                 | x :: q' => if bool_decide (q' = p) then Some x else None
                 | [] => None
                 end) (elements (dom fs)).

(** The names [d.glob('*')] yields: the entries of a directory, none
    for what is not a directory.  Their order is left to the map. *)
Definition glob_star (fs : filesystem) (d : path) : list string :=
  if is_dir fs d then children fs d else [].

(** [p.rmdir()] *)
Definition rmdir (fs : filesystem) (p : path) : exn_kind + filesystem :=
  match node_at fs p with
  | Some Dir =>
      match children fs p with
      | [] => inr (delete p fs)
      | _ => inl (OSError (path_str p))
      end
  | Some (File _) => inl (NotADirectoryError (path_str p))
  | None => inl (FileNotFoundError (path_str p))
  end.

(** [shutil.rmtree(p)] *)
Definition rmtree (fs : filesystem) (p : path) : exn_kind + filesystem :=
  match node_at fs p with
  | Some Dir => inr (filter (fun e => negb (below p e.1) = true) fs)
  | Some (File _) => inl (NotADirectoryError (path_str p))
  | None => inl (FileNotFoundError (path_str p))
  end.

(** ** dreamer/providers/utils.py *)

(** [_get]: the first of its arguments that is not [None]. *)
Fixpoint _get {S} (args : list (option string)) : M S string :=
  match args with
  | [] => raise (ValueError "no argument or default given")
  | Some arg :: _ => mret arg
  | None :: rest => _get rest
  end.

(** ** The S3 bucket *)

Record s3_object := S3Object {
  body : content;
  metadata : list (string * string)
}.

Inductive s3_request :=
| GetObject (key : string)
| PutObject (key : string)
| DeleteObject (key : string)
| ListObjects (pfx : string).

Global Instance s3_request_eq_dec : EqDecision s3_request.
Proof. solve_decision. Defined.

Definition is_PutObject (r : s3_request) : bool :=
  match r with PutObject _ => true | _ => false end.

(** * dreamer/providers/aws.py *)

(** The provider that keeps the state in S3, through a temporary
    directory.  [get_projects], which matches the keys against a regular
    expression built from the module name, and [troubleshoot] are left
    out. *)
Module AWS.

(** What lies outside the provider object: the bucket, the transport's
    failures, the local filesystem, the identity [whoami()] reports and
    what the logger has printed.  [faults] gives, for a key, the exception
    every request on that key ends in (an expired credential, a refused
    key, a dead connection); [list_fault] does the same for listings.
    [requests] records every request sent, in order. *)
Record world := World {
  objects : gmap string s3_object;
  faults : gmap string exn_kind;
  list_fault : option exn_kind;
  requests : list s3_request;
  fs : filesystem;
  identity : string;
  log : list string
}.

(** The attributes of an [AWSFileProvider]. *)
Record provider := Provider {
  bucket : string;
  prefix : string;
  default_module : option string;
  default_project : option string;
  local_dir : path;
  dirty : gset path;
  _bucket_contents : option (list string);
  last_version : option Z;
  _deleted_project : bool
}.

Record state := State { self : provider; env : world }.

Definition set_objects (o : gmap string s3_object) (s : state) : state :=
  let w := env s in
  State (self s) (World o (faults w) (list_fault w) (requests w) (fs w) (identity w) (log w)).

Definition set_requests (r : list s3_request) (s : state) : state :=
  let w := env s in
  State (self s) (World (objects w) (faults w) (list_fault w) r (fs w) (identity w) (log w)).

Definition set_fs (f : filesystem) (s : state) : state :=
  let w := env s in
  State (self s) (World (objects w) (faults w) (list_fault w) (requests w) f (identity w) (log w)).

Definition set_log (l : list string) (s : state) : state :=
  let w := env s in
  State (self s) (World (objects w) (faults w) (list_fault w) (requests w) (fs w) (identity w) l).

Definition set_defaults (m p : option string) (s : state) : state :=
  let a := self s in
  State (Provider (bucket a) (prefix a) m p (local_dir a) (dirty a)
           (_bucket_contents a) (last_version a) (_deleted_project a)) (env s).

Definition set_dirty (d : gset path) (s : state) : state :=
  let a := self s in
  State (Provider (bucket a) (prefix a) (default_module a) (default_project a)
           (local_dir a) d (_bucket_contents a) (last_version a)
           (_deleted_project a)) (env s).

Definition set_bucket_contents (c : option (list string)) (s : state) : state :=
  let a := self s in
  State (Provider (bucket a) (prefix a) (default_module a) (default_project a)
           (local_dir a) (dirty a) c (last_version a) (_deleted_project a)) (env s).

Definition set_last_version (v : option Z) (s : state) : state :=
  let a := self s in
  State (Provider (bucket a) (prefix a) (default_module a) (default_project a)
           (local_dir a) (dirty a) (_bucket_contents a) v (_deleted_project a)) (env s).

Definition set_deleted_project (b : bool) (s : state) : state :=
  let a := self s in
  State (Provider (bucket a) (prefix a) (default_module a) (default_project a)
           (local_dir a) (dirty a) (_bucket_contents a) (last_version a) b) (env s).

(** *** The transport: [S3Transfer] and the S3 client *)

Definition fs_step (f : filesystem -> exn_kind + filesystem) : M state unit :=
  lift_step (fun s => fs (env s)) set_fs f.

Definition fs_read {A} (f : filesystem -> exn_kind + A) : M state A :=
  lift_read (fun s => fs (env s)) f.

Definition request (r : s3_request) : M state unit :=
  modify (fun s => set_requests (requests (env s) ++ [r]) s).

Definition check_fault (key : string) : M state unit :=
  f ← gets (fun s => faults (env s) !! key);
  match f with
  | Some k => raise k
  | None => mret tt
  end.

(** [transfer.download_file(bucket, key, dest)]: a missing key is a
    [ClientError] with code 404. *)
Definition download_file (key : string) (dest : path) : M state unit :=
  request (GetObject key);;
  check_fault key;;
  o ← gets (fun s => objects (env s) !! key);
  match o with
  | None => raise (ClientError "404")
  | Some obj => fs_step (fun fs => write_file fs dest (body obj))
  end.

(** [transfer.upload_file(src, bucket, key, extra_args={'Metadata': meta})]:
    the local file is read before anything is sent. *)
Definition upload_file (src : path) (key : string) (meta : list (string * string))
  : M state unit :=
  c ← fs_read (fun fs => read_file fs src);
  request (PutObject key);;
  check_fault key;;
  modify (fun s => set_objects (<[key := S3Object c meta]> (objects (env s))) s).

(** [client.delete_object(Bucket=bucket, Key=key)]: deleting a key that
    is not there succeeds. *)
Definition delete_object (key : string) : M state unit :=
  request (DeleteObject key);;
  check_fault key;;
  modify (fun s => set_objects (delete key (objects (env s))) s).

(** The pages of [list_objects] for a prefix, flattened to their keys.
    S3 lists the keys in the order of their bytes. *)
Definition list_objects (pfx : string) : M state (list string) :=
  request (ListObjects pfx);;
  f ← gets (fun s => list_fault (env s));
  match f with
  | Some k => raise k
  | None =>
      gets (fun s => sorted (List.filter (startswith pfx) (elements (dom (objects (env s))))))
  end.

(** [whoami()] *)
Definition whoami : M state string := gets (fun s => identity (env s)).

(** [logger.error(msg)] *)
Definition logger_error (msg : string) : M state unit :=
  modify (fun s => set_log (log (env s) ++ [msg]) s).

(** *** Construction *)

(** [s.endswith('/')] and [s.rstrip('/')] *)
Fixpoint ends_with_slash (s : string) : bool :=
  match s with
  | EmptyString => false
  | String a EmptyString => Ascii.eqb a "/"
  | String _ s' => ends_with_slash s'
  end.

Fixpoint rstrip_slash (s : string) : string :=
  match s with
  | EmptyString => EmptyString
  | String a s' =>
      match rstrip_slash s' with
      | EmptyString => if Ascii.eqb a "/" then EmptyString else String a EmptyString
      | r => String a r
      end
  end.

(** The bucket name and key prefix [__init__] parses out of [base_dir],
    once the leading [s3://] is known to be there. *)
Definition parse_base_dir (base_dir : string) : string * string :=
  let base_dir := drop_str 5 base_dir in
  let base_dir := if ends_with_slash base_dir then rstrip_slash base_dir else base_dir in
  match split_max "/" 1 base_dir with
  | [b; p] => (b, if ends_with_slash p then p else p ++ "/")
  | _ => (base_dir, EmptyString)
  end.

(** [AWSFileProvider(base_dir, default_module, default_project)] in the
    world [w]; [tmp] is the directory [tempfile.mkdtemp] makes. *)
Definition __init__ (base_dir : string) (default_module default_project : option string)
    (tmp : path) (w : world) : exn_kind + state :=
  if negb (startswith "s3://" base_dir) then
    inl (ProgrammerError "Invalid base directory given for AWSFileProvider")
  else
    let '(b, p) := parse_base_dir base_dir in
    match os_mkdir (fs w) tmp with
    | inl e => inl e
    | inr fs' =>
        inr (set_fs fs'
               (State (Provider b p default_module default_project tmp ∅ None None false) w))
    end.

(** *** Helper methods *)

Definition _get_project_and_module (project module : option string)
  : M state (string * string) :=
  a ← gets self;
  project ← _get [project; default_project a];
  module ← _get [module; default_module a];
  mret (project, module).

Definition _ensure_local_path (project module : option string) : M state path :=
  '(project, module) ← _get_project_and_module project module;
  a ← gets self;
  let base_path := project :: module :: local_dir a in
  fs_step (fun fs => mkdir_parents true fs base_path);;
  mret base_path.

Definition _get_s3_key (fn : string) (project module : option string) : M state string :=
  '(project, module) ← _get_project_and_module project module;
  a ← gets self;
  mret (prefix a ++ join "/" [module; project; fn]).

Definition _get_local_path (fn : string) (project module : option string) : M state path :=
  '(project, module) ← _get_project_and_module project module;
  a ← gets self;
  mret (fn :: project :: module :: local_dir a).

(** *** Versioning methods *)

(** [json.load(f)] on the downloaded record, as far as the callers use
    it: the version and the author. *)
Definition json_load (c : content) : exn_kind + (Z * string) :=
  match c with
  | MetaJson v a => inr (v, a)
  | Raw _ => inl JSONDecodeError
  end.

Definition get_metadata (module project : string) : M state (Z * string) :=
  a ← gets self;
  let key := prefix a ++ module ++ "/" ++ project in
  base_path ← _ensure_local_path (Some project) (Some module);
  let destination := "meta.json" :: base_path in
  download_file key destination;;
  fs_read (fun fs => match read_file fs destination with
                     | inl e => inl e
                     | inr c => json_load c
                     end).

Definition get_remote_version : M state (option Z) :=
  a ← gets self;
  match default_module a, default_project a with
  | Some m, Some p =>
      try_except (d ← get_metadata m p; mret (Some d.1))
        is_ClientError (fun _ => mret None)
  | _, _ =>
      raise (DreamerException
               "get_remote_version() called without default_module and default_project set")
  end.

Definition open_project (module project : string) : M state unit :=
  modify (set_defaults (Some module) (Some project));;
  v ← get_remote_version;
  modify (set_last_version v).

Definition sync_project : M state Z :=
  a ← gets self;
  match default_module a, default_project a with
  | Some m, Some p =>
      let key := prefix a ++ join "/" [m; p] in
      base_path ← _ensure_local_path (Some p) (Some m);
      let fn := "meta.json" :: base_path in
      let new_version :=
        match last_version a with
        | None => 0%Z
        | Some v => (v + 1)%Z
        end in
      who ← whoami;
      fs_step (fun fs => write_file fs fn (MetaJson new_version who));;
      upload_file fn key [("Content-Type", "application/json")];;
      mret new_version
  | _, _ =>
      raise (DreamerException
               "sync_project() called without default_module and default_project set")
  end.

Definition close_project : M state unit :=
  sync_project;;
  modify (set_defaults None None);;
  modify (set_last_version None).

(** *** FileProvider method overrides *)

Definition get (fn : string) (project module : option string) : M state path :=
  base_path ← _ensure_local_path project module;
  let file_path := fn :: base_path in
  there ← gets (fun s => path_exists (fs (env s)) file_path);
  (if negb there then
     key ← _get_s3_key fn project module;
     a ← gets self;
     try_except (download_file key file_path)
       (fun _ => true)
       (fun e => raise_from (FileNotFoundError ("s3://" ++ bucket a ++ "/" ++ key)) e)
   else mret tt);;
  mret file_path.

Definition get_rw (fn : string) (project module : option string) : M state path :=
  base_path ← _ensure_local_path project module;
  let file_path := fn :: base_path in
  modify (fun s => set_dirty (dirty (self s) ∪ {[file_path]}) s);;
  try_except (get fn project module;; mret tt)
    is_FileNotFoundError
    (fun _ => fs_step (fun fs => touch fs file_path));;
  mret file_path.

(** The [bucket_contents] property: listed once, then served from
    [_bucket_contents]. *)
Definition bucket_contents : M state (list string) :=
  a ← gets self;
  match _bucket_contents a with
  | Some l => mret l
  | None =>
      modify (set_bucket_contents (Some []));;
      keys ← list_objects (prefix a);
      let l := map (drop_str (String.length (prefix a))) keys in
      modify (set_bucket_contents (Some l));;
      mret l
  end.

(** The loop of [get_files]: of the keys that start with [pfx], the
    third part of [key.split('/', 2)]. *)
Fixpoint files_under (pfx : string) (keys : list string) : exn_kind + list string :=
  match keys with
  | [] => inr []
  | key :: rest =>
      if startswith pfx key then
        match split_max "/" 2 key !! 2%nat with
        | None => inl IndexError
        | Some fn =>
            match files_under pfx rest with
            | inl e => inl e
            | inr out => inr (fn :: out)
            end
        end
      else files_under pfx rest
  end.

Definition get_files (project module : option string) : M state (list string) :=
  '(project, module) ← _get_project_and_module project module;
  keys ← bucket_contents;
  lift_read (fun _ => tt) (fun _ => files_under (module ++ "/" ++ project ++ "/") keys).

Definition delete (fn : string) (project module : option string) : M state unit :=
  '(project, module) ← _get_project_and_module project module;
  key ← _get_s3_key fn (Some project) (Some module);
  delete_object key.

Definition delete_project (project : string) (module : option string) (recursive : bool)
  : M state unit :=
  '(project, module) ← _get_project_and_module (Some project) module;
  a ← gets self;
  (if bool_decide (Some project = default_project a)
      && bool_decide (Some module = default_module a)
   then modify (set_deleted_project true) else mret tt);;
  (if recursive then
     fns ← get_files (Some project) (Some module);
     for_each fns (fun fn => delete fn (Some project) (Some module))
   else mret tt);;
  delete_object (join "/" [prefix a ++ module; project]).

Definition module_exists (module : string) : M state bool :=
  mret true.

Definition project_exists (project : string) (module : option string) : M state bool :=
  '(project, module) ← _get_project_and_module (Some project) module;
  keys ← bucket_contents;
  mret (bool_decide (module ++ "/" ++ project ∈ keys)).

(** [str(path.relative_to(local_dir))] *)
Definition relative_to (p base : path) : exn_kind + string :=
  if bool_decide (base `suffix_of` p) then
    match take (length p - length base) p with
    | [] => inr "."
    | rel => inr (join "/" (rev rel))
    end
  else inl (ValueError (path_str p)).

Definition sync : M state bool :=
  a ← gets self;
  if _deleted_project a || bool_decide (dirty a = ∅) then
    mret true
  else
    current_version ← get_remote_version;
    if negb (bool_decide (current_version = last_version a)) then
      raise (DreamerException "Critical: Remote state has been modified during our runtime!")
    else
      for_each (elements (dirty a)) (fun p =>
        rel ← lift_read (fun _ => tt) (fun _ => relative_to p (local_dir a));
        who ← whoami;
        upload_file p (prefix a ++ rel) [("author", who)]);;
      (if truthy (default_module a) && truthy (default_project a) then
         v ← sync_project;
         modify (set_last_version (Some v))
       else mret tt);;
      mret true.

(** [__exit__(exc_type, exc_val, exc_tb)]: [exc] is the exception in
    flight, if any. *)
Definition __exit__ (exc : option exn) : M state bool :=
  a ← gets self;
  local_exc ← try_except (sync;; mret None) (fun _ => true) (fun e => mret (Some e));
  (if bool_decide (exc = None) then fs_step (fun fs => rmtree fs (local_dir a)) else mret tt);;
  (if negb (bool_decide (exc = None)) || negb (bool_decide (local_exc = None)) then
     logger_error ("An exception happened, so your local state has NOT been removed from "
                   ++ path_str (local_dir a));;
     logger_error
       "You might be able to use the local state to manually solve the issue or clean up.";;
     match local_exc with
     | Some e => throw e
     | None => mret tt
     end
   else mret tt);;
  mret false.

(** [with provider: body]: [__enter__] does nothing; [__exit__] sees the
    exception the body raised, and the caller sees the exception
    [__exit__] raises or, when [__exit__] returns false, the body's own.
    A true result would swallow the body's exception. *)
Definition with_provider {A} (body : M state A) : M state (option A) :=
  fun s =>
    match body s with
    | (inr x, s1) =>
        match __exit__ None s1 with
        | (inl e, s2) => (inl e, s2)
        | (inr _, s2) => (inr (Some x), s2)
        end
    | (inl e, s1) =>
        match __exit__ (Some e) s1 with
        | (inl e', s2) => (inl e', s2)
        | (inr swallow, s2) => if swallow : bool then (inr None, s2) else (inl e, s2)
        end
    end.

(** *** Listings of modules, local path and locators *)

(** The loop of [get_modules]: of the keys that split in two parts at
    the slashes, the first part. *)
Definition module_of_key (key : string) : option string :=
  match split_all "/" key with
  | [m; _] => Some m
  | _ => None
  end.

Definition get_modules : M state (list string) :=
  keys ← bucket_contents;
  mret (sorted (remove_dups (omap module_of_key keys))).

Definition get_default_local_path : M state path :=
  a ← gets self;
  match default_module a, default_project a with
  | Some m, Some p => mret (p :: m :: local_dir a)
  | _, _ =>
      raise (DreamerException
               "get_default_local_path() called without default_module and default_project set")
  end.

Definition get_base_url : M state string :=
  a ← gets self;
  mret ("s3://" ++ bucket a ++ "/" ++ prefix a).

Definition url_for (fn : string) (project module : option string) : M state string :=
  a ← gets self;
  key ← _get_s3_key fn project module;
  mret ("s3://" ++ bucket a ++ "/" ++ key).

Definition url_for_project (project module : string) : M state string :=
  a ← gets self;
  mret ("s3://" ++ bucket a ++ "/" ++ prefix a ++ module ++ "/" ++ project ++ "/").

(** [__enter__] *)
Definition __enter__ : M state unit := mret tt.

(** *** Notions used to state what the provider does *)

(** The exception [sync] raises when the remote version has moved. *)
Definition critical : exn :=
  Exc (DreamerException "Critical: Remote state has been modified during our runtime!") None.

(** The upload requests sent so far. *)
Definition put_requests (s : state) : list s3_request :=
  List.filter is_PutObject (requests (env s)).

(** The state once the request [r] has been sent. *)
Definition sent (r : s3_request) (s : state) : state :=
  set_requests (requests (env s) ++ [r]) s.

Definition s3_url (s : state) (key : string) : string :=
  "s3://" ++ bucket (self s) ++ "/" ++ key.

(** The version [sync_project] writes after [last]. *)
Definition next_version (last : option Z) : Z :=
  match last with None => 0 | Some v => v + 1 end.

(** The key of the metadata record of a project, the record itself, and
    what the bucket holds at a key. *)
Definition metadata_key (s : state) (m p : string) : string :=
  prefix (self s) ++ join "/" [m; p].

Definition metadata_object (v : Z) (who : string) : s3_object :=
  S3Object (MetaJson v who) [("Content-Type", "application/json")].

Definition stored (s : state) (key : string) : option content :=
  body <$> objects (env s) !! key.

(** The two lines [__exit__] logs, and the state once they are logged. *)
Definition exit_messages (d : path) : list string :=
  ["An exception happened, so your local state has NOT been removed from " ++ path_str d;
   "You might be able to use the local state to manually solve the issue or clean up."].

Definition logged (d : path) (s : state) : state :=
  set_log (log (env s) ++ exit_messages d) s.

(** What [bucket_contents] answers in a state: the cached listing when
    there is one, the keys under the prefix otherwise. *)
Definition listing (s : state) : list string :=
  match _bucket_contents (self s) with
  | Some l => l
  | None =>
      map (drop_str (String.length (prefix (self s))))
        (sorted (List.filter (startswith (prefix (self s)))
                   (elements (dom (objects (env s))))))
  end.

(** The state a computation leaves. *)
Definition after {A} (m : M state A) (s : state) : state := (m s).2.

End AWS.

(** * dreamer/providers/local.py *)

(** The provider that keeps the state in the local filesystem;
    [troubleshoot] is left out. *)
Module Local.

(** The attributes of a [LocalFileProvider]. *)
Record provider := Provider {
  base_dir : path;
  default_module : option string;
  default_project : option string
}.

Record state := State { self : provider; fs : filesystem }.

Definition set_fs (f : filesystem) (s : state) : state := State (self s) f.

Definition set_defaults (m p : option string) (s : state) : state :=
  State (Provider (base_dir (self s)) m p) (fs s).

Definition fs_step (f : filesystem -> exn_kind + filesystem) : M state unit :=
  lift_step fs set_fs f.

Definition _get_project_and_module (project module : option string)
  : M state (string * string) :=
  a ← gets self;
  project ← _get [project; default_project a];
  module ← _get [module; default_module a];
  mret (project, module).

Definition get_path (fn project module : string) : M state path :=
  a ← gets self;
  mret (fn :: project :: module :: base_dir a).

Definition get (fn : string) (project module : option string) : M state path :=
  '(project, module) ← _get_project_and_module project module;
  p ← get_path fn project module;
  there ← gets (fun s => path_exists (fs s) p);
  if negb there then raise (FileNotFoundError (path_str p)) else mret p.

(** [if not d.exists(): d.mkdir()] *)
Definition ensure_dir (d : path) : M state unit :=
  there ← gets (fun s => path_exists (fs s) d);
  if negb there then fs_step (fun fs => mkdir false fs d) else mret tt.

Definition get_rw (fn : string) (project module : option string) : M state path :=
  '(project, module) ← _get_project_and_module project module;
  a ← gets self;
  ensure_dir (base_dir a);;
  let module_dir := module :: base_dir a in
  ensure_dir module_dir;;
  let project_dir := project :: module_dir in
  ensure_dir project_dir;;
  p ← get_path fn project module;
  there ← gets (fun s => path_exists (fs s) p);
  (if negb there then fs_step (fun fs => touch fs p) else mret tt);;
  mret p.

Definition delete (fn : string) (project module : option string) : M state unit :=
  '(project, module) ← _get_project_and_module project module;
  a ← gets self;
  fs_step (fun fs => unlink fs (fn :: project :: module :: base_dir a)).

Definition delete_project (project : string) (module : option string) (recursive : bool)
  : M state unit :=
  '(project, module) ← _get_project_and_module (Some project) module;
  a ← gets self;
  if recursive then fs_step (fun fs => rmtree fs (project :: module :: base_dir a))
  else fs_step (fun fs => rmdir fs (project :: module :: base_dir a)).

Definition module_exists (module : string) : M state bool :=
  a ← gets self;
  gets (fun s => is_dir (fs s) (module :: base_dir a)).

Definition project_exists (project : string) (module : option string) : M state bool :=
  a ← gets self;
  module ← _get [module; default_module a];
  gets (fun s => is_dir (fs s) (project :: module :: base_dir a)).

Definition sync : M state bool := mret true.

Definition open_project (module project : string) : M state unit :=
  modify (set_defaults (Some module) (Some project)).

Definition close_project : M state unit := mret tt.

Definition get_modules : M state (list string) :=
  a ← gets self;
  gets (fun s => List.filter (fun x => is_dir (fs s) (x :: base_dir a))
                   (glob_star (fs s) (base_dir a))).

Definition get_projects (module : option string) : M state (list string) :=
  a ← gets self;
  module ← _get [module; default_module a];
  gets (fun s => List.filter (fun x => is_dir (fs s) (x :: module :: base_dir a))
                   (glob_star (fs s) (module :: base_dir a))).

Definition get_files (project module : option string) : M state (list string) :=
  '(project, module) ← _get_project_and_module project module;
  a ← gets self;
  gets (fun s => sorted (glob_star (fs s) (project :: module :: base_dir a))).

Definition get_default_local_path : M state path :=
  a ← gets self;
  match default_module a, default_project a with
  | Some m, Some p => mret (p :: m :: base_dir a)
  | _, _ =>
      raise (DreamerException
               "get_default_local_path() called without default_module and default_project")
  end.

Definition get_base_url : M state string :=
  a ← gets self;
  mret (path_str (base_dir a)).

(** The pair [_get_project_and_module] returns is (project, module);
    [url_for] takes it as (module, project). *)
Definition url_for (fn : string) (project module : option string) : M state string :=
  '(module, project) ← _get_project_and_module project module;
  p ← get_path fn project module;
  mret (path_str p).

Definition url_for_project (project module : string) : M state string :=
  a ← gets self;
  mret (path_str (project :: module :: base_dir a)).

(** [__enter__] and [__exit__] do nothing; [__exit__] returns [None],
    which lets the exception in flight through. *)
Definition __enter__ : M state unit := mret tt.

Definition __exit__ (exc : option exn) : M state bool := mret false.

End Local.

(** * Notions shared by the statements *)

(** The exception [_get] raises. *)
Definition no_default : exn := Exc (ValueError "no argument or default given") None.

(** What [_get [arg; default]] finds. *)
Definition resolve (arg default : option string) : option string :=
  match arg with Some a => Some a | None => default end.

(** Something is at [p]; nothing but a directory can be at [d]. *)
Definition present (fs : filesystem) (p : path) : Prop := is_Some (node_at fs p).


(** A filesystem in which every entry lies in a directory. *)
Definition well_formed (fs : filesystem) : Prop :=
  map_Forall (fun q _ => is_dir fs (parent q) = true) fs.

(** A computation keeps the relation [R] between the state it starts in
    and the state it leaves, whether it returns or raises. *)
Definition preserves {S A} (R : relation S) (m : M S A) : Prop :=
  forall s, R s (m s).2.

Definition same {S T} (proj : S -> T) : relation S := fun s s' => proj s' = proj s.

(** * Runs used as examples *)

Module Scenario.
Import AWS.

(** The directory [mkdtemp] makes, on a disk that has [/tmp]. *)
Definition tmp : path := ["dreamer-k3x"; "tmp"].

Definition disk : filesystem := {[ ["tmp"] := Dir ]}.

(** A bucket in which bob has synced the project [db/prod] up to
    version 3, with the files [a] and [b]. *)
Definition bucket3 : gmap string s3_object :=
  {[ "states/db/prod" := metadata_object 3 "bob@desk";
     "states/db/prod/a" := S3Object (Raw "A") [("author", "bob@desk")];
     "states/db/prod/b" := S3Object (Raw "B") [("author", "bob@desk")] ]}.

(** The world of alice: a bucket, the keys on which the transport
    fails, and nothing sent or logged yet. *)
Definition world_of (o : gmap string s3_object) (f : gmap string exn_kind) : world :=
  World o f None [] disk "alice@laptop" [].

(** The provider [AWSFileProvider("s3://bucket/states")] just made. *)
Definition fresh (w : world) : state :=
  State (Provider "bucket" "states/" None None tmp ∅ None None false)
        (World (objects w) (faults w) (list_fault w) (requests w)
               (<[tmp := Dir]> (fs w)) (identity w) (log w)).

(** On an empty bucket: [db/prod] opened, then [state.json] written. *)
Definition opened0 : state := after (open_project "db" "prod") (fresh (world_of ∅ ∅)).

Definition staged0 : state := after (get_rw "state.json" None None) opened0.

(** On [bucket3]: [db/prod] opened (at version 3), then [a] fetched for
    writing. *)
Definition opened3 : state := after (open_project "db" "prod") (fresh (world_of bucket3 ∅)).

Definition staged3 : state := after (get_rw "a" None None) opened3.

(** After [staged3], bob syncs the project again: the record moves to
    version 4 behind the back of the provider. *)
Definition conflict : state :=
  set_objects (<["states/db/prod" := metadata_object 4 "bob@desk"]> (objects (env staged3)))
    staged3.

(** After [staged3], the provider deletes the project it has open. *)
Definition deleted_run : state := after (delete_project "prod" None true) staged3.

(** A bucket with a second project, [db/staging], synced once. *)
Definition bucket5 : gmap string s3_object :=
  <["states/db/staging" := metadata_object 1 "bob@desk"]> bucket3.

(** On [bucket5]: [db/prod] opened and deleted, then [db/staging]
    opened (at version 1) and [x] written for it. *)
Definition reopened : state :=
  after (get_rw "x" None None)
    (after (open_project "db" "staging")
       (after (delete_project "prod" None true)
          (after (open_project "db" "prod") (fresh (world_of bucket5 ∅))))).

(** After [reopened], bob syncs [db/staging]: its record moves to
    version 2 behind the back of the provider. *)
Definition stale_flag : state :=
  set_objects (<["states/db/staging" := metadata_object 2 "bob@desk"]> (objects (env reopened)))
    reopened.

(** On [bucket3], S3 refuses the record of [db/prod] (a 403); the
    connection fails on it; [db/prod] is open and the connection fails
    on the file [a]. *)
Definition refused : state :=
  fresh (world_of bucket3 {[ "states/db/prod" := ClientError "403" ]}).

Definition unreachable : state :=
  fresh (world_of bucket3 {[ "states/db/prod" := EndpointConnectionError ]}).

Definition offline : state :=
  after (open_project "db" "prod")
    (fresh (world_of bucket3 {[ "states/db/prod/a" := EndpointConnectionError ]})).

(** The exception of a step that fails inside the scope. *)
Definition step_failed : exn := Exc (ValueError "step failed") None.

(** A local provider over [/srv/state], which is there but empty. *)
Definition local_disk : filesystem := {[ ["srv"] := Dir; ["state"; "srv"] := Dir ]}.

Definition local0 : Local.state :=
  Local.State (Local.Provider ["state"; "srv"] None None) local_disk.

(** The same provider once the project [db/prod] has a directory. *)
Definition local1 : Local.state :=
  Local.State (Local.Provider ["state"; "srv"] None None)
    (<[ ["prod"; "db"; "state"; "srv"] := Dir ]> (<[ ["db"; "state"; "srv"] := Dir ]> local_disk)).


End Scenario.

(** * Proofs *)

(** The proofs step through a method one call at a time: [cbn] is kept
    from unfolding the filesystem primitives, the string functions and
    the methods, and unfolds the setters of the state, so that the
    projections of an updated state reduce. *)
Arguments mkdir_parents : simpl never.
Arguments mkdir : simpl never.
Arguments os_mkdir : simpl never.
Arguments create : simpl never.
Arguments touch : simpl never.
Arguments write_file : simpl never.
Arguments read_file : simpl never.
Arguments rmtree : simpl never.
Arguments rmdir : simpl never.
Arguments unlink : simpl never.
Arguments path_exists : simpl never.
Arguments is_dir : simpl never.
Arguments node_at : simpl never.
Arguments path_str : simpl never.
Arguments join : simpl never.
Arguments String.append : simpl never.
Arguments drop_str : simpl never.
Arguments startswith : simpl never.
Arguments sorted : simpl never.

Arguments AWS.get_remote_version : simpl never.
Arguments AWS.get_metadata : simpl never.
Arguments AWS._ensure_local_path : simpl never.
Arguments AWS._get_project_and_module : simpl never.
Arguments AWS._get_s3_key : simpl never.
Arguments AWS.download_file : simpl never.
Arguments AWS.upload_file : simpl never.
Arguments AWS.delete_object : simpl never.
Arguments AWS.sync_project : simpl never.
Arguments AWS.sync : simpl never.
Arguments AWS.get : simpl never.
Arguments AWS.get_rw : simpl never.
Arguments AWS.bucket_contents : simpl never.
Arguments AWS.get_files : simpl never.

Arguments AWS.set_objects _ _ /.
Arguments AWS.set_requests _ _ /.
Arguments AWS.set_fs _ _ /.
Arguments AWS.set_log _ _ /.
Arguments AWS.set_defaults _ _ _ /.
Arguments AWS.set_dirty _ _ /.
Arguments AWS.set_bucket_contents _ _ /.
Arguments AWS.set_last_version _ _ /.
Arguments AWS.set_deleted_project _ _ /.
Arguments AWS.sent _ _ /.
Arguments AWS.logged _ _ /.
Arguments AWS.after {_} _ _ /.
Arguments Local.set_fs _ _ /.
Arguments Local.set_defaults _ _ _ /.

(** Unfold the monad. *)
Ltac munfold :=
  unfold mbind, M_bind, mret, M_ret, raise, raise_from, throw, try_except,
    gets, modify, lift_read, lift_step in *.

(** Two lists of different lengths differ. *)
Ltac list_neq := let H := fresh in intros H; apply (f_equal length) in H; cbn in H; lia.

(** A closed equation, by running both sides. *)
Ltac by_eval := vm_compute; reflexivity.

(** ** The filesystem *)

Lemma node_at_cons fs x p : node_at fs (x :: p) = fs !! (x :: p).
Proof. reflexivity. Qed.

Lemma node_at_insert_eq (fs : filesystem) p n :
  p ≠ [] -> node_at (<[p := n]> fs) p = Some n.
Proof. destruct p; [done|]. intros _. rewrite node_at_cons. apply lookup_insert_eq. Qed.

Lemma node_at_insert_ne (fs : filesystem) p q n :
  p ≠ q -> node_at (<[p := n]> fs) q = node_at fs q.
Proof. destruct q; [done|]. intros H. rewrite !node_at_cons. by apply lookup_insert_ne. Qed.

Lemma create_inr fs p n fs' :
  create fs p n = inr fs' -> is_dir fs (parent p) = true /\ fs' = <[p := n]> fs.
Proof.
  unfold create, is_dir. destruct (node_at fs (parent p)) as [[|c]|]; [|done..].
  by intros [= <-].
Qed.

Lemma create_dir fs p n :
  is_dir fs (parent p) = true -> create fs p n = inr (<[p := n]> fs).
Proof. unfold create, is_dir. by destruct (node_at fs (parent p)) as [[|c]|]. Qed.

Lemma create_not_found fs p n w :
  create fs p n = inl (FileNotFoundError w) -> node_at fs (parent p) = None.
Proof. unfold create. by destruct (node_at fs (parent p)) as [[|c]|]. Qed.

Lemma os_mkdir_inr fs p fs' :
  os_mkdir fs p = inr fs' ->
  node_at fs p = None /\ is_dir fs (parent p) = true /\ fs' = <[p := Dir]> fs.
Proof.
  unfold os_mkdir. destruct (node_at fs p) eqn:E; [done|].
  intros H. apply create_inr in H. tauto.
Qed.

Lemma os_mkdir_not_found fs p w :
  os_mkdir fs p = inl (FileNotFoundError w) ->
  node_at fs p = None /\ node_at fs (parent p) = None.
Proof.
  unfold os_mkdir. destruct (node_at fs p) eqn:E; [done|].
  intros H. by apply create_not_found in H.
Qed.

Lemma is_dir_insert_new fs p :
  node_at fs p = None -> is_dir (<[p := Dir]> fs) p = true.
Proof.
  intros H. unfold is_dir. rewrite node_at_insert_eq; [done|].
  intros ->. done.
Qed.

Lemma mkdir_inr eo fs p fs' :
  mkdir eo fs p = inr fs' -> is_dir fs' p = true.
Proof.
  unfold mkdir. destruct (os_mkdir fs p) as [e|fs1] eqn:E.
  - destruct e; try done;
      destruct eo; cbn; try done;
      destruct (is_dir fs p) eqn:D; try done; by intros [= <-].
  - intros [= <-]. apply os_mkdir_inr in E as (Hn & _ & ->).
    by apply is_dir_insert_new.
Qed.

Lemma mkdir_not_found eo fs p w :
  mkdir eo fs p = inl (FileNotFoundError w) -> node_at fs (parent p) = None.
Proof.
  unfold mkdir. destruct (os_mkdir fs p) as [e|fs1] eqn:E; [|done].
  destruct e; try (destruct (eo && is_dir fs p); done).
  intros _. by apply os_mkdir_not_found in E as [_ ?].
Qed.

Lemma mkdir_parents_unfold eo fs p :
  mkdir_parents eo fs p =
  match os_mkdir fs p with
  | inr fs' => inr fs'
  | inl (FileNotFoundError w) =>
      match p with
      | [] => inl (FileNotFoundError w)
      | _ :: q =>
          match mkdir_parents true fs q with
          | inl e => inl e
          | inr fs1 => mkdir eo fs1 p
          end
      end
  | inl e => if eo && is_dir fs p then inr fs else inl e
  end.
Proof. destruct p; reflexivity. Qed.

Lemma os_mkdir_root fs : os_mkdir fs [] = inl (FileExistsError (path_str [])).
Proof. reflexivity. Qed.

Lemma is_dir_node fs p : is_dir fs p = true -> node_at fs p = Some Dir.
Proof. unfold is_dir. by destruct (node_at fs p) as [[|c]|]. Qed.

Lemma forgiven_inr (eo : bool) fs p (e : exn_kind) fs' :
  (if eo && is_dir fs p then inr fs else inl e) = inr fs' -> is_dir fs' p = true.
Proof. destruct eo; cbn; [|done]. destruct (is_dir fs p) eqn:D; [|done]. by intros [= <-]. Qed.

Lemma mkdir_parents_is_dir eo fs p fs' :
  mkdir_parents eo fs p = inr fs' -> is_dir fs' p = true.
Proof.
  rewrite mkdir_parents_unfold.
  destruct (os_mkdir fs p) as [e|fs1] eqn:E.
  - destruct e; try apply forgiven_inr.
    destruct p as [|x q]; [done|].
    destruct (mkdir_parents true fs q) as [e|fs1]; [done|].
    apply mkdir_inr.
  - intros [= <-]. apply os_mkdir_inr in E as (Hn & _ & ->).
    by apply is_dir_insert_new.
Qed.

Lemma mkdir_parents_not_found eo fs p w :
  mkdir_parents eo fs p ≠ inl (FileNotFoundError w).
Proof.
  revert eo w. induction p as [|x q IH]; intros eo w; rewrite mkdir_parents_unfold.
  - rewrite os_mkdir_root. by destruct (eo && is_dir fs []).
  - destruct (os_mkdir fs (x :: q)) as [e|fs1] eqn:E; [|done].
    destruct e; try (destruct (eo && is_dir fs (x :: q)); done).
    destruct (mkdir_parents true fs q) as [e|fs1] eqn:P.
    + intros [= ->]. by eapply IH.
    + intros H. apply mkdir_not_found in H. cbn in H.
      apply mkdir_parents_is_dir, is_dir_node in P. congruence.
Qed.

Lemma mkdir_parents_again fs p :
  is_dir fs p = true -> mkdir_parents true fs p = inr fs.
Proof.
  intros D. pose proof (is_dir_node _ _ D) as N.
  rewrite mkdir_parents_unfold. unfold os_mkdir. rewrite N. cbn. by rewrite D.
Qed.

Lemma path_exists_false fs p : node_at fs p = None -> path_exists fs p = false.
Proof. unfold path_exists. by intros ->. Qed.

Lemma rmtree_dir fs p : is_dir fs p = true -> exists fs', rmtree fs p = inr fs'.
Proof. intros D. unfold rmtree. rewrite (is_dir_node _ _ D). by eexists. Qed.

Lemma rmtree_gone fs p fs' :
  p ≠ [] -> rmtree fs p = inr fs' -> forall q, p `suffix_of` q -> node_at fs' q = None.
Proof.
  intros Hp. unfold rmtree. destruct (node_at fs p) as [[|c]|]; [|done..].
  intros [= <-] q Hq.
  destruct q as [|x q]; [by apply suffix_nil_inv in Hq|]. rewrite node_at_cons.
  apply map_lookup_filter_None_2. right. intros n _. cbn. unfold below.
  rewrite bool_decide_eq_true_2 by done. done.
Qed.

Lemma touch_new fs p :
  node_at fs p = None -> is_dir fs (parent p) = true ->
  touch fs p = inr (<[p := File (Raw EmptyString)]> fs).
Proof. intros N D. unfold touch. rewrite N. by apply create_dir. Qed.


Lemma write_file_inr fs p c fs' :
  write_file fs p c = inr fs' -> fs' = <[p := File c]> fs.
Proof.
  unfold write_file.
  destruct (node_at fs p) as [[|c']|]; [done|..]; intros H; by apply create_inr in H as [_ ?].
Qed.

Lemma write_file_new fs p c :
  node_at fs p = None -> is_dir fs (parent p) = true ->
  write_file fs p c = inr (<[p := File c]> fs).
Proof. intros N D. unfold write_file. rewrite N. by apply create_dir. Qed.

(** ** Frames: what a computation leaves as it was *)

Global Instance same_preorder {S T} (proj : S -> T) : PreOrder (same proj).
Proof. split; unfold same; [intros s; reflexivity | intros a b c H1 H2; congruence]. Qed.

Section Preserves.
Context {S : Type} (R : relation S) `{!PreOrder R}.

Lemma preserves_ret {A} (a : A) : preserves R (mret a).
Proof. intros s. cbn. reflexivity. Qed.

Lemma preserves_throw {A} e : preserves R (throw e : M S A).
Proof. intros s. cbn. reflexivity. Qed.

Lemma preserves_raise {A} k : preserves R (raise k : M S A).
Proof. intros s. cbn. reflexivity. Qed.

Lemma preserves_raise_from {A} k e : preserves R (raise_from k e : M S A).
Proof. intros s. cbn. reflexivity. Qed.

Lemma preserves_gets {A} (f : S -> A) : preserves R (gets f).
Proof. intros s. cbn. reflexivity. Qed.

Lemma preserves_lift_read {T A} (g : S -> T) (f : T -> exn_kind + A) :
  preserves R (lift_read g f).
Proof. intros s. unfold lift_read. destruct (f (g s)); cbn; reflexivity. Qed.

Lemma preserves_bind {A B} (m : M S A) (f : A -> M S B) :
  preserves R m -> (forall a, preserves R (f a)) -> preserves R (m ≫= f).
Proof.
  intros Hm Hf s. specialize (Hm s). unfold mbind, M_bind.
  destruct (m s) as [[e|a] s1]; cbn in *; [done|].
  etrans; [exact Hm | apply Hf].
Qed.

Lemma preserves_try {A} (m : M S A) sel h :
  preserves R m -> (forall e, preserves R (h e)) -> preserves R (try_except m sel h).
Proof.
  intros Hm Hh s. specialize (Hm s). unfold try_except.
  destruct (m s) as [[e|a] s1]; cbn in *; [|done].
  destruct (sel e); cbn; [|done]. etrans; [exact Hm | apply Hh].
Qed.

Lemma preserves_for_each {A} (l : list A) (body : A -> M S unit) :
  (forall x, preserves R (body x)) -> preserves R (for_each l body).
Proof.
  intros Hb. induction l as [|x l IH]; cbn.
  - apply preserves_ret.
  - apply preserves_bind; [apply Hb | intros _; exact IH].
Qed.

Lemma preserves_modify (f : S -> S) : (forall s, R s (f s)) -> preserves R (modify f).
Proof. intros Hf s. cbn. apply Hf. Qed.

Lemma preserves_lift_step {T} (g : S -> T) (set : T -> S -> S) f :
  (forall t s, R s (set t s)) -> preserves R (lift_step g set f).
Proof. intros Hs s. unfold lift_step. destruct (f (g s)); cbn; [reflexivity | apply Hs]. Qed.

Lemma preserves__get args : preserves R (_get args).
Proof.
  induction args as [|[a|] args IH]; cbn.
  - apply preserves_raise. - apply preserves_ret. - exact IH.
Qed.
End Preserves.

(** One step of a frame proof, by the shape of the program. *)
Ltac frame_step :=
  lazymatch goal with
  | |- PreOrder _ => tc_solve
  | |- forall _, _ => intros ?
  | |- same _ _ _ => unfold same; cbn; reflexivity
  | |- preserves _ (mbind _ _) => apply preserves_bind
  | |- preserves _ (mret _) => apply preserves_ret
  | |- preserves _ (raise _) => apply preserves_raise
  | |- preserves _ (throw _) => apply preserves_throw
  | |- preserves _ (raise_from _ _) => apply preserves_raise_from
  | |- preserves _ (gets _) => apply preserves_gets
  | |- preserves _ (lift_read _ _) => apply preserves_lift_read
  | |- preserves _ (_get _) => apply preserves__get
  | |- preserves _ (try_except _ _ _) => apply preserves_try
  | |- preserves _ (for_each _ _) => apply preserves_for_each
  | |- preserves _ (modify _) => apply preserves_modify
  | |- preserves _ (lift_step _ _ _) => apply preserves_lift_step
  | |- preserves _ (match ?x with _ => _ end) => destruct x
  end.

Ltac frame_with tac := repeat first [frame_step | tac].

(** What a bind does when run. *)
Lemma bind_run {S A B} (m : M S A) (f : A -> M S B) s :
  (m ≫= f) s = match m s with (inl e, s') => (inl e, s') | (inr a, s') => f a s' end.
Proof. reflexivity. Qed.

(** * The object-store provider *)

Module AWSFacts.
Import AWS.

(** ** What fetching the remote version leaves as it was *)

Lemma gpm_frame R `{!PreOrder R} project module :
  preserves R (_get_project_and_module project module).
Proof. unfold _get_project_and_module. repeat frame_step. Qed.

Lemma ensure_local_path_frame {T} (proj : state -> T) project module :
  (forall f s, proj (set_fs f s) = proj s) ->
  preserves (same proj) (_ensure_local_path project module).
Proof.
  intros Hfs. unfold _ensure_local_path, fs_step.
  frame_with ltac:(first [apply gpm_frame | apply Hfs ]).
Qed.

Lemma download_file_frame {T} (proj : state -> T) key dest :
  (forall f s, proj (set_fs f s) = proj s) ->
  (forall r s, proj (set_requests (requests (env s) ++ [GetObject r]) s) = proj s) ->
  preserves (same proj) (download_file key dest).
Proof.
  intros Hfs Hrq. unfold download_file, request, check_fault, fs_step.
  frame_with ltac:(first [apply Hfs | apply Hrq]).
Qed.

Lemma put_requests_get r s :
  put_requests (set_requests (requests (env s) ++ [GetObject r]) s) = put_requests s.
Proof. unfold put_requests. cbn. rewrite List.filter_app. cbn. apply app_nil_r. Qed.

Lemma get_remote_version_frame {T} (proj : state -> T) :
  (forall f s, proj (set_fs f s) = proj s) ->
  (forall r s, proj (set_requests (requests (env s) ++ [GetObject r]) s) = proj s) ->
  preserves (same proj) get_remote_version.
Proof.
  intros Hfs Hrq. unfold get_remote_version, get_metadata, fs_read.
  frame_with ltac:(first [apply ensure_local_path_frame, Hfs
                         | apply download_file_frame; [apply Hfs | apply Hrq]]).
Qed.

(** ** What each call does, as an equation on its run *)

Lemma gpm_run project module s :
  _get_project_and_module project module s =
  match resolve project (default_project (self s)) with
  | Some p =>
      match resolve module (default_module (self s)) with
      | Some m => (inr (p, m), s)
      | None => (inl no_default, s)
      end
  | None => (inl no_default, s)
  end.
Proof.
  unfold _get_project_and_module. munfold. cbn.
  destruct project, module, (default_project (self s)), (default_module (self s)); reflexivity.
Qed.

Lemma gpm_inv project module s pr mo s' :
  _get_project_and_module project module s = (inr (pr, mo), s') ->
  resolve project (default_project (self s)) = Some pr
  /\ resolve module (default_module (self s)) = Some mo /\ s' = s.
Proof.
  rewrite gpm_run. destruct (resolve project _); [|done].
  destruct (resolve module _); [|done]. by intros [= -> -> ->].
Qed.

Lemma ensure_local_path_run project module s pr mo :
  resolve project (default_project (self s)) = Some pr ->
  resolve module (default_module (self s)) = Some mo ->
  _ensure_local_path project module s =
  match mkdir_parents true (fs (env s)) (pr :: mo :: local_dir (self s)) with
  | inl k => (inl (Exc k None), s)
  | inr fs1 => (inr (pr :: mo :: local_dir (self s)), set_fs fs1 s)
  end.
Proof.
  intros Hp Hm. unfold _ensure_local_path. rewrite bind_run, gpm_run, Hp, Hm.
  unfold fs_step. munfold. cbn.
  destruct (mkdir_parents _ _ _); reflexivity.
Qed.

Lemma get_s3_key_run fn project module s pr mo :
  resolve project (default_project (self s)) = Some pr ->
  resolve module (default_module (self s)) = Some mo ->
  _get_s3_key fn project module s = (inr (prefix (self s) ++ join "/" [mo; pr; fn]), s).
Proof.
  intros Hp Hm. unfold _get_s3_key. rewrite bind_run, gpm_run, Hp, Hm. reflexivity.
Qed.

Lemma download_file_run key dest s :
  download_file key dest s =
  let s1 := sent (GetObject key) s in
  match faults (env s) !! key with
  | Some k => (inl (Exc k None), s1)
  | None =>
      match objects (env s) !! key with
      | None => (inl (Exc (ClientError "404") None), s1)
      | Some obj =>
          match write_file (fs (env s)) dest (body obj) with
          | inl k => (inl (Exc k None), s1)
          | inr fs1 => (inr tt, set_fs fs1 s1)
          end
      end
  end.
Proof.
  unfold download_file, request, check_fault, fs_step, sent. munfold. cbn.
  destruct (faults (env s) !! key); [reflexivity|]. cbn.
  destruct (objects (env s) !! key); [|reflexivity]. cbn.
  destruct (write_file _ _ _); reflexivity.
Qed.

Lemma upload_file_run src key meta s :
  upload_file src key meta s =
  match read_file (fs (env s)) src with
  | inl k => (inl (Exc k None), s)
  | inr c =>
      let s1 := sent (PutObject key) s in
      match faults (env s) !! key with
      | Some k => (inl (Exc k None), s1)
      | None => (inr tt, set_objects (<[key := S3Object c meta]> (objects (env s))) s1)
      end
  end.
Proof.
  unfold upload_file, request, check_fault, fs_read, sent. munfold. cbn.
  destruct (read_file _ _); [reflexivity|]. cbn.
  destruct (faults (env s) !! key); reflexivity.
Qed.

Lemma delete_object_run key s :
  delete_object key s =
  let s1 := sent (DeleteObject key) s in
  match faults (env s) !! key with
  | Some k => (inl (Exc k None), s1)
  | None => (inr tt, set_objects (base.delete key (objects (env s))) s1)
  end.
Proof.
  unfold delete_object, request, check_fault, sent. munfold. cbn.
  destruct (faults (env s) !! key); reflexivity.
Qed.

Lemma get_run fn project module s pr mo :
  resolve project (default_project (self s)) = Some pr ->
  resolve module (default_module (self s)) = Some mo ->
  get fn project module s =
  let base := pr :: mo :: local_dir (self s) in
  let key := prefix (self s) ++ join "/" [mo; pr; fn] in
  match mkdir_parents true (fs (env s)) base with
  | inl k => (inl (Exc k None), s)
  | inr fs1 =>
      let s1 := set_fs fs1 s in
      if path_exists fs1 (fn :: base) then (inr (fn :: base), s1)
      else
        match download_file key (fn :: base) s1 with
        | (inl e, s2) => (inl (Exc (FileNotFoundError (s3_url s key)) (Some (kind e))), s2)
        | (inr _, s2) => (inr (fn :: base), s2)
        end
  end.
Proof.
  intros Hp Hm. unfold get. rewrite bind_run, (ensure_local_path_run _ _ _ pr mo Hp Hm).
  destruct (mkdir_parents _ _ _) as [k|fs1]; [reflexivity|]. cbn.
  rewrite bind_run. cbn.
  destruct (path_exists fs1 _); cbn; [reflexivity|].
  rewrite !bind_run.
  rewrite (get_s3_key_run fn project module _ pr mo) by assumption. cbn.
  munfold. cbn. unfold s3_url.
  destruct (download_file _ _ _) as [[e|[]] s2]; reflexivity.
Qed.

(** ** Reading and writing a file *)

(** [get] on a file of which the staging directory has no copy. *)
Section GetMiss.
Variables (s : state) (fn : string) (project module : option string).
Variables (pr mo : string) (fs1 : filesystem).
Let base := pr :: mo :: local_dir (self s).
Let key := prefix (self s) ++ join "/" [mo; pr; fn].
Hypothesis Hctx : _get_project_and_module project module s = (inr (pr, mo), s).
Hypothesis Hdir : mkdir_parents true (fs (env s)) base = inr fs1.
Hypothesis Hmiss : node_at fs1 (fn :: base) = None.

Lemma get_miss_found obj :
  faults (env s) !! key = None -> objects (env s) !! key = Some obj ->
  get fn project module s =
    (inr (fn :: base), set_fs (<[fn :: base := File (body obj)]> fs1) (sent (GetObject key) s)).
Proof using Hctx Hdir Hmiss.
  intros Hf Ho. apply gpm_inv in Hctx as (Hp & Hm & _).
  rewrite (get_run fn project module s pr mo Hp Hm). cbn zeta. fold base. rewrite Hdir.
  rewrite (path_exists_false _ _ Hmiss). rewrite download_file_run. cbn.
  fold key. rewrite Hf, Ho.
  rewrite write_file_new; [reflexivity | exact Hmiss |].
  cbn. by apply mkdir_parents_is_dir in Hdir.
Qed.

Lemma get_miss_absent :
  faults (env s) !! key = None -> objects (env s) !! key = None ->
  get fn project module s =
    (inl (Exc (FileNotFoundError (s3_url s key)) (Some (ClientError "404"))),
     set_fs fs1 (sent (GetObject key) s)).
Proof using Hctx Hdir Hmiss.
  intros Hf Ho. apply gpm_inv in Hctx as (Hp & Hm & _).
  rewrite (get_run fn project module s pr mo Hp Hm). cbn zeta. fold base. rewrite Hdir.
  rewrite (path_exists_false _ _ Hmiss). rewrite download_file_run. cbn.
  fold key. by rewrite Hf, Ho.
Qed.

Lemma get_miss_fault k :
  faults (env s) !! key = Some k ->
  get fn project module s =
    (inl (Exc (FileNotFoundError (s3_url s key)) (Some k)),
     set_fs fs1 (sent (GetObject key) s)).
Proof using Hctx Hdir Hmiss.
  intros Hf. apply gpm_inv in Hctx as (Hp & Hm & _).
  rewrite (get_run fn project module s pr mo Hp Hm). cbn zeta. fold base. rewrite Hdir.
  rewrite (path_exists_false _ _ Hmiss). rewrite download_file_run. cbn.
  fold key. by rewrite Hf.
Qed.
End GetMiss.

Lemma get_rw_run fn project module s pr mo fs1 :
  resolve project (default_project (self s)) = Some pr ->
  resolve module (default_module (self s)) = Some mo ->
  mkdir_parents true (fs (env s)) (pr :: mo :: local_dir (self s)) = inr fs1 ->
  get_rw fn project module s =
  let file_path := fn :: pr :: mo :: local_dir (self s) in
  let s1 := set_dirty (dirty (self s) ∪ {[file_path]}) (set_fs fs1 s) in
  match get fn project module s1 with
  | (inr _, s2) => (inr file_path, s2)
  | (inl e, s2) =>
      if is_FileNotFoundError e then
        match touch (fs (env s2)) file_path with
        | inl k => (inl (Exc k None), s2)
        | inr fs3 => (inr file_path, set_fs fs3 s2)
        end
      else (inl e, s2)
  end.
Proof.
  intros Hp Hm Hd. unfold get_rw.
  rewrite bind_run, (ensure_local_path_run _ _ _ pr mo Hp Hm), Hd. cbn.
  munfold. cbn. unfold fs_step. munfold.
  destruct (get _ _ _ _) as [[e|a] s2]; cbn; [|reflexivity].
  destruct (is_FileNotFoundError e); [|reflexivity].
  destruct (touch _ _); reflexivity.
Qed.


Lemma ensure_local_path_ok project module s p s' :
  _ensure_local_path project module s = (inr p, s') ->
  exists pr mo fs1,
    resolve project (default_project (self s)) = Some pr
    /\ resolve module (default_module (self s)) = Some mo
    /\ mkdir_parents true (fs (env s)) (pr :: mo :: local_dir (self s)) = inr fs1.
Proof.
  unfold _ensure_local_path. rewrite bind_run, gpm_run.
  destruct (resolve project _) as [pr|]; [|done].
  destruct (resolve module _) as [mo|]; [|done].
  cbn. unfold fs_step. munfold. cbn.
  destruct (mkdir_parents _ _ _) as [k|fs1] eqn:E; [done|].
  intros _. by exists pr, mo, fs1.
Qed.




(** *** Frames of the synchronisation *)

Lemma upload_file_frame {T} (proj : state -> T) src key meta :
  (forall r s, proj (set_requests r s) = proj s) ->
  (forall o s, proj (set_objects o s) = proj s) ->
  preserves (same proj) (upload_file src key meta).
Proof.
  intros Hrq Hob. unfold upload_file, request, check_fault, fs_read.
  frame_with ltac:(first [apply Hrq | apply Hob]).
Qed.

Lemma sync_project_frame {T} (proj : state -> T) :
  (forall f s, proj (set_fs f s) = proj s) ->
  (forall r s, proj (set_requests r s) = proj s) ->
  (forall o s, proj (set_objects o s) = proj s) ->
  preserves (same proj) sync_project.
Proof.
  intros Hfs Hrq Hob. unfold sync_project, whoami, fs_step.
  frame_with ltac:(first [apply ensure_local_path_frame, Hfs
                         | apply upload_file_frame; [apply Hrq | apply Hob]
                         | apply Hfs]).
Qed.

Lemma sync_frame {T} (proj : state -> T) :
  (forall f s, proj (set_fs f s) = proj s) ->
  (forall r s, proj (set_requests r s) = proj s) ->
  (forall o s, proj (set_objects o s) = proj s) ->
  (forall v s, proj (set_last_version v s) = proj s) ->
  preserves (same proj) sync.
Proof.
  intros Hfs Hrq Hob Hlv. unfold sync, whoami.
  frame_with ltac:(first [apply get_remote_version_frame; [apply Hfs | intros; apply Hrq]
                         | apply upload_file_frame; [apply Hrq | apply Hob]
                         | apply sync_project_frame; [apply Hfs | apply Hrq | apply Hob]
                         | apply Hlv]).
Qed.

Lemma sync_keeps_dirty s r s1 : sync s = (r, s1) -> dirty (self s1) = dirty (self s).
Proof.
  intros H. pose proof (sync_frame (fun s => dirty (self s))
    ltac:(done) ltac:(done) ltac:(done) ltac:(done) s) as F.
  by rewrite H in F.
Qed.

Lemma read_file_written (fs : filesystem) p c :
  p ≠ [] -> read_file (<[p := File c]> fs) p = inr c.
Proof. intros Hp. unfold read_file. by rewrite node_at_insert_eq. Qed.

Lemma sync_project_inr s v s' m p :
  default_module (self s) = Some m -> default_project (self s) = Some p ->
  sync_project s = (inr v, s') ->
  v = next_version (last_version (self s))
  /\ self s' = self s
  /\ identity (env s') = identity (env s)
  /\ objects (env s') !! metadata_key s m p
     = Some (metadata_object v (identity (env s))).
Proof.
  intros Hm Hp. unfold sync_project. rewrite bind_run. cbn. rewrite Hm, Hp.
  rewrite bind_run, (ensure_local_path_run _ _ _ p m) by done.
  destruct (mkdir_parents _ _ _) as [k|fs1]; [done|]. cbn.
  unfold whoami, fs_step. munfold. cbn.
  destruct (write_file fs1 _ _) as [k|fs2] eqn:W; [done|].
  apply write_file_inr in W as ->.
  rewrite upload_file_run. cbn. rewrite read_file_written by done. cbn.
  destruct (faults (env s) !! _); [done|].
  intros [= <- <-]. cbn. repeat split. unfold metadata_key. apply lookup_insert_eq.
Qed.

Lemma uploads_frame {T} (proj : state -> T) (a : provider) (l : list path) :
  (forall r s, proj (set_requests r s) = proj s) ->
  (forall o s, proj (set_objects o s) = proj s) ->
  preserves (same proj)
    (for_each l (fun p =>
       rel ← lift_read (fun _ => tt) (fun _ => relative_to p (local_dir a));
       who ← whoami;
       upload_file p (prefix a ++ rel) [("author", who)])).
Proof.
  intros Hrq Hob. unfold whoami.
  frame_with ltac:(apply upload_file_frame; [apply Hrq | apply Hob]).
Qed.

Lemma truthy_Some x : x ≠ EmptyString -> truthy (Some x) = true.
Proof. by destruct x. Qed.

(** A [sync] that had something to send, for a project with proper
    names, and came back: the provider is as before but for
    [last_version], and the bucket holds the new record. *)
Lemma sync_inr s b s1 m p :
  _deleted_project (self s) = false -> dirty (self s) ≠ ∅ ->
  default_module (self s) = Some m -> default_project (self s) = Some p ->
  m ≠ EmptyString -> p ≠ EmptyString ->
  sync s = (inr b, s1) ->
  let v := next_version (last_version (self s)) in
  self s1 = self (set_last_version (Some v) s)
  /\ identity (env s1) = identity (env s)
  /\ objects (env s1) !! metadata_key s m p = Some (metadata_object v (identity (env s))).
Proof.
  intros Hdel Hdirty Hm Hp Hmne Hpne. unfold sync. rewrite bind_run. cbn.
  rewrite Hdel, bool_decide_eq_false_2 by done. cbn. rewrite bind_run.
  pose proof (get_remote_version_frame self ltac:(done) ltac:(done) s) as G1.
  pose proof (get_remote_version_frame (fun s => identity (env s)) ltac:(done) ltac:(done) s) as G2.
  destruct (get_remote_version s) as [[e|cv] sa]; [done|]. cbn in G1, G2.
  destruct (negb _); [done|]. rewrite bind_run.
  match goal with |- context [for_each ?l ?f sa] =>
    pose proof (uploads_frame self (self s) l ltac:(done) ltac:(done) sa) as U1;
    pose proof (uploads_frame (fun s => identity (env s)) (self s) l ltac:(done) ltac:(done) sa) as U2;
    destruct (for_each l f sa) as [[e|[]] sb]
  end; [done|]. cbn in U1, U2.
  rewrite Hm, Hp, !truthy_Some by done. cbn. rewrite !bind_run.
  unfold same in *.
  assert (self sb = self s) as Hself by congruence.
  assert (identity (env sb) = identity (env s)) as Hid by congruence.
  destruct (sync_project sb) as [[e|v] sc] eqn:SP; [done|].
  apply (sync_project_inr sb v sc m p) in SP as (-> & S1 & I1 & O1); [| congruence..].
  cbn. intros [= <- <-]. cbn.
  rewrite S1, I1, Hself, Hid.
  unfold metadata_key in *. rewrite Hself, Hid in O1.
  split; [by rewrite Hm, Hp, Hdel | split; [done | exact O1]].
Qed.

Lemma sync_skip s :
  _deleted_project (self s) || bool_decide (dirty (self s) = ∅) = true ->
  sync s = (inr true, s).
Proof. intros H. unfold sync. rewrite bind_run. cbn. by rewrite H. Qed.

(** *** Leaving the scope *)

Lemma exit_run exc s :
  __exit__ exc s =
  let d := local_dir (self s) in
  match sync s with
  | (r, s1) =>
      match exc with
      | None =>
          match rmtree (fs (env s1)) d with
          | inl k => (inl (Exc k None), s1)
          | inr fs' =>
              match r with
              | inl e => (inl e, logged d (set_fs fs' s1))
              | inr _ => (inr false, set_fs fs' s1)
              end
          end
      | Some _ =>
          match r with
          | inl e => (inl e, logged d s1)
          | inr _ => (inr false, logged d s1)
          end
      end
  end.
Proof.
  unfold __exit__. rewrite bind_run. cbn. rewrite bind_run.
  unfold try_except at 1. rewrite bind_run.
  destruct (sync s) as [[e|b] s1]; cbn.
  - destruct exc as [e0|]; cbn.
    + unfold logger_error. munfold. cbn. by rewrite <- app_assoc.
    + unfold fs_step, logger_error. munfold. cbn.
      destruct (rmtree _ _); cbn; [done|]. by rewrite <- app_assoc.
  - destruct exc as [e0|]; cbn.
    + unfold logger_error. munfold. cbn. by rewrite <- app_assoc.
    + unfold fs_step. munfold. cbn. destruct (rmtree _ _); done.
Qed.

Lemma exit_clean s b s1 :
  sync s = (inr b, s1) ->
  local_dir (self s) ≠ [] ->
  is_dir (fs (env s1)) (local_dir (self s)) = true ->
  exists s2,
    __exit__ None s = (inr false, s2)
    /\ (forall q, local_dir (self s) `suffix_of` q -> node_at (fs (env s2)) q = None)
    /\ log (env s2) = log (env s1).
Proof.
  intros Hs Hne D. rewrite exit_run, Hs. cbn zeta.
  destruct (rmtree_dir _ _ D) as [fs' R]. rewrite R.
  eexists. split; [reflexivity|]. cbn. split; [|done].
  by eapply rmtree_gone.
Qed.

Lemma exit_in_flight s e0 r s1 :
  sync s = (r, s1) ->
  exists s2,
    __exit__ (Some e0) s = (match r with inl e => inl e | inr _ => inr false end, s2)
    /\ fs (env s2) = fs (env s1)
    /\ log (env s2) = (log (env s1) ++ exit_messages (local_dir (self s)))%list.
Proof.
  intros Hs. rewrite exit_run, Hs. cbn zeta. destruct r; eexists; done.
Qed.

Lemma exit_sync_failed s e s1 :
  sync s = (inl e, s1) ->
  is_dir (fs (env s1)) (local_dir (self s)) = true ->
  exists s2,
    __exit__ None s = (inl e, s2)
    /\ log (env s2) = (log (env s1) ++ exit_messages (local_dir (self s)))%list.
Proof.
  intros Hs D. rewrite exit_run, Hs. cbn zeta.
  destruct (rmtree_dir _ _ D) as [fs' R]. rewrite R. eexists. done.
Qed.

Lemma with_provider_raised {A} (body : M state A) s0 e0 s r s1 :
  body s0 = (inl e0, s) -> sync s = (r, s1) ->
  (with_provider body s0).1 = inl (match r with inl e => e | inr _ => e0 end).
Proof.
  intros Hb Hs. unfold with_provider. rewrite Hb.
  destruct (exit_in_flight s e0 r s1 Hs) as (s2 & -> & _). by destruct r.
Qed.

(** *** Listings and deletion *)

Lemma bucket_contents_run s :
  list_fault (env s) = None ->
  bucket_contents s =
  (inr (listing s),
   match _bucket_contents (self s) with
   | Some _ => s
   | None => set_bucket_contents (Some (listing s)) (sent (ListObjects (prefix (self s))) s)
   end).
Proof.
  intros Hl. unfold bucket_contents, listing. rewrite bind_run. cbn.
  destruct (_bucket_contents (self s)); [done|].
  unfold list_objects, request. munfold. cbn. by rewrite Hl.
Qed.

Lemma get_files_run s project module pr mo :
  resolve project (default_project (self s)) = Some pr ->
  resolve module (default_module (self s)) = Some mo ->
  list_fault (env s) = None ->
  get_files project module s =
  let s1 := match _bucket_contents (self s) with
            | Some _ => s
            | None => set_bucket_contents (Some (listing s))
                        (sent (ListObjects (prefix (self s))) s)
            end in
  match files_under (mo ++ "/" ++ pr ++ "/") (listing s) with
  | inl k => (inl (Exc k None), s1)
  | inr l => (inr l, s1)
  end.
Proof.
  intros Hp Hm Hl. unfold get_files. rewrite bind_run, gpm_run, Hp, Hm. cbn.
  rewrite bind_run, bucket_contents_run by done. munfold. cbn.
  destruct (files_under _ _); done.
Qed.

Lemma delete_project_no_files s project module mo recursive :
  resolve module (default_module (self s)) = Some mo ->
  list_fault (env s) = None ->
  files_under (mo ++ "/" ++ project ++ "/") (listing s) = inr [] ->
  faults (env s) !! join "/" [prefix (self s) ++ mo; project] = None ->
  exists s',
    delete_project project module recursive s = (inr tt, s')
    /\ log (env s') = log (env s)
    /\ objects (env s')
       = base.delete (join "/" [prefix (self s) ++ mo; project]) (objects (env s)).
Proof.
  intros Hm Hl Hf Hk. unfold delete_project. rewrite bind_run, gpm_run. cbn [resolve].
  rewrite Hm. cbn. rewrite bind_run. cbn. rewrite bind_run.
  set (s0 := (if bool_decide (Some project = default_project (self s))
                 && bool_decide (Some mo = default_module (self s))
              then modify (set_deleted_project true) else mret tt) s).
  assert (exists sa, s0 = (inr tt, sa) /\ env sa = env s
           /\ default_module (self sa) = default_module (self s)
           /\ default_project (self sa) = default_project (self s)
           /\ listing sa = listing s /\ prefix (self sa) = prefix (self s)
           /\ _bucket_contents (self sa) = _bucket_contents (self s))
    as (sa & -> & Henv & Hdm & Hdp & Hls & Hpf & Hbc).
  { subst s0. destruct (_ && _); eexists; (split; [reflexivity|]); done. }
  rewrite bind_run. destruct recursive.
  - rewrite bind_run, (get_files_run _ _ _ project mo); [|done|by rewrite Hdm|by rewrite Henv].
    cbn zeta. rewrite Hls, Hf. cbn. rewrite delete_object_run. cbn.
    destruct (_bucket_contents (self sa)); cbn; rewrite Henv, Hk;
      eexists; (split; [reflexivity|]); cbn; by rewrite ?Henv.
  - cbn. rewrite delete_object_run. cbn. rewrite Henv, Hk.
    eexists; (split; [reflexivity|]); cbn; by rewrite ?Henv.
Qed.

(** ** What the claims say of the object-store provider *)

Import Scenario.

(** The provider the runs start from is the one the constructor makes. *)
Example init_gives_fresh :
  __init__ "s3://bucket/states" None None tmp (world_of bucket3 ∅)
  = inr (fresh (world_of bucket3 ∅)).
Proof. by_eval. Qed.

Lemma nonempty_by_elements (X : gset path) x l : elements X = x :: l -> X ≠ ∅.
Proof. intros H ->. by rewrite elements_empty in H. Qed.

(** What [sync] does on a provider that has not deleted a project it
    had open ([_deleted_project] is unset), with at least one dirty
    staged file, when the remote version fetched at that moment (which
    there is only when a project is open) differs from [last_version]:
    it raises the "remote state has been modified" exception in the
    state the fetch left, in which the bucket is as before and no
    upload has been requested. *)
Lemma sync_refuses_stale_version s v s' :
  _deleted_project (self s) = false ->
  dirty (self s) ≠ ∅ ->
  get_remote_version s = (inr v, s') ->
  v ≠ last_version (self s) ->
  sync s = (inl critical, s')
  /\ objects (env s') = objects (env s)
  /\ put_requests s' = put_requests s.
Proof.
  intros Hdel Hdirty Hget Hv. split.
  - unfold sync. rewrite bind_run. cbn. rewrite Hdel. rewrite bool_decide_eq_false_2 by done.
    cbn. rewrite bind_run, Hget. rewrite bool_decide_eq_false_2 by done. reflexivity.
  - pose proof (get_remote_version_frame (fun s => objects (env s)) ltac:(done) ltac:(done) s) as H1.
    pose proof (get_remote_version_frame put_requests ltac:(done) put_requests_get s) as H2.
    rewrite Hget in H1, H2. done.
Qed.

(** The run [conflict]: opened at version 3, a file staged, and the
    record moved to version 4 by someone else. *)
Lemma sync_refuses_stale_version_witness :
  sync conflict = (inl critical, after get_remote_version conflict)
  /\ objects (env (after get_remote_version conflict)) = objects (env conflict)
  /\ put_requests (after get_remote_version conflict) = put_requests conflict.
Proof.
  apply (sync_refuses_stale_version conflict (Some 4%Z)).
  - by_eval.
  - eapply nonempty_by_elements. by_eval.
  - by_eval.
  - vm_compute. discriminate.
Defined.

(** C1.  [delete_project] sets [_deleted_project] when it deletes the
    open project, and nothing ever unsets it: not [open_project]
    either.  In the run [stale_flag] the provider has opened and
    deleted [db/prod], then opened [db/staging] at version 1 and
    written [x] for it, and the record of [db/staging], which is in the
    bucket, has moved to version 2.  A project is open, a file is
    dirty, the version fetched now (2) differs from [last_version] (1):
    [sync] returns true and changes nothing, so it sends nothing.  In
    the same state with the flag unset, [sync] raises. *)
Theorem sync_skips_the_version_check_after_an_earlier_deletion :
  default_module (self stale_flag) = Some "db"
  /\ default_project (self stale_flag) = Some "staging"
  /\ elements (dirty (self stale_flag)) = [["x"; "staging"; "db"; "dreamer-k3x"; "tmp"]]
  /\ last_version (self stale_flag) = Some 1%Z
  /\ stored stale_flag "states/db/staging" = Some (MetaJson 2 "bob@desk")
  /\ (get_remote_version stale_flag).1 = inr (Some 2%Z)
  /\ _deleted_project (self stale_flag) = true
  /\ sync stale_flag = (inr true, stale_flag)
  /\ (sync (set_deleted_project false stale_flag)).1 = inl critical.
Proof. repeat split; by_eval. Qed.

(** Once [delete_project] has got as far as the open project, the
    provider remembers it, whether the deletion then succeeds or not. *)
Lemma delete_project_sets_flag s project module mo recursive r s1 :
  default_project (self s) = Some project ->
  default_module (self s) = Some mo ->
  resolve module (default_module (self s)) = Some mo ->
  delete_project project module recursive s = (r, s1) ->
  _deleted_project (self s1) = true.
Proof.
  intros Hp Hd Hm. unfold delete_project.
  rewrite bind_run, gpm_run. cbn [resolve]. rewrite Hm. cbn.
  rewrite bind_run. cbn. rewrite bind_run.
  rewrite Hp, Hd, !bool_decide_eq_true_2 by done. cbn.
  match goal with |- ?m ?s0 = _ -> _ =>
    assert (preserves (same (fun s => _deleted_project (self s))) m) as F;
      [|intros H; specialize (F s0); unfold same in F; rewrite H in F; exact F]
  end.
  unfold get_files, bucket_contents, list_objects, delete, _get_s3_key,
    delete_object, request, check_fault.
  frame_with ltac:(apply gpm_frame).
Qed.

(** C2, amended.  A [sync] never changes the dirty set.  When nothing
    is dirty, and when the provider has just been asked to delete the
    project it has open, [sync] is a no-op returning true, however often
    it is called.  On a provider that has not deleted a project it had
    open, for an open project with non-empty names and with something
    dirty, two [sync]s in a row that both return write two records: the
    first leaves [last_version] and the stored record at the version
    after the old [last_version], the second at one more. *)
Theorem sync_twice_writes_twice :
  (forall s r s1, sync s = (r, s1) -> dirty (self s1) = dirty (self s))
  /\ (forall s, dirty (self s) = ∅ -> sync s = (inr true, s))
  /\ (forall s project module mo recursive r s1,
        default_project (self s) = Some project ->
        default_module (self s) = Some mo ->
        resolve module (default_module (self s)) = Some mo ->
        delete_project project module recursive s = (r, s1) ->
        sync s1 = (inr true, s1))
  /\ (forall s b1 s1 b2 s2 m p,
        _deleted_project (self s) = false -> dirty (self s) ≠ ∅ ->
        default_module (self s) = Some m -> default_project (self s) = Some p ->
        m ≠ EmptyString -> p ≠ EmptyString ->
        sync s = (inr b1, s1) -> sync s1 = (inr b2, s2) ->
        let v := next_version (last_version (self s)) in
        last_version (self s1) = Some v
        /\ stored s1 (metadata_key s m p) = Some (MetaJson v (identity (env s)))
        /\ last_version (self s2) = Some (v + 1)%Z
        /\ stored s2 (metadata_key s m p) = Some (MetaJson (v + 1) (identity (env s)))).
Proof.
  split; [exact sync_keeps_dirty|]. split; [|split].
  - intros s H. apply sync_skip. rewrite H, bool_decide_eq_true_2 by done. apply orb_true_r.
  - intros s project module mo recursive r s1 Hp Hd Hm H. apply sync_skip.
    by rewrite (delete_project_sets_flag s project module mo recursive r s1).
  - intros s b1 s1 b2 s2 m p Hdel Hdirty Hm Hp Hmne Hpne H1 H2 v.
    pose proof (sync_inr s b1 s1 m p Hdel Hdirty Hm Hp Hmne Hpne H1) as (S1 & I1 & O1).
    fold v in S1, O1.
    assert (sync_inr_2 := sync_inr s1 b2 s2 m p).
    rewrite S1 in sync_inr_2. cbn in sync_inr_2.
    destruct sync_inr_2 as (S2 & I2 & O2); try done.
    unfold stored, metadata_key in *. rewrite S1 in O2. cbn in O2.
    rewrite S1, S2, O1, O2, I1. done.
Qed.

(** The run [staged0]: a project that had no record, one file written;
    and the run [staged3], in which the provider then deletes the
    project it has open. *)
Lemma sync_twice_writes_twice_witness :
  (last_version (self (after sync staged0)) = Some 0%Z
   /\ stored (after sync staged0) "states/db/prod" = Some (MetaJson 0 "alice@laptop")
   /\ last_version (self (after sync (after sync staged0))) = Some 1%Z
   /\ stored (after sync (after sync staged0)) "states/db/prod"
      = Some (MetaJson 1 "alice@laptop"))
  /\ sync deleted_run = (inr true, deleted_run).
Proof.
  destruct sync_twice_writes_twice as (_ & _ & HD & H). split.
  - apply (H staged0 true (after sync staged0) true (after sync (after sync staged0))
             "db" "prod").
    + by_eval.
    + eapply nonempty_by_elements. by_eval.
    + by_eval.
    + by_eval.
    + discriminate.
    + discriminate.
    + by_eval.
    + by_eval.
  - apply (HD staged3 "prod" None "db" true (inr tt) deleted_run).
    + by_eval.
    + by_eval.
    + by_eval.
    + by_eval.
Defined.

(** C2 as stated fails: in the run [staged0] the first [sync] returns
    true and leaves the file dirty, and the second one is not a no-op. *)
Lemma sync_leaves_dirty_set :
  ~ (forall s s1,
       sync s = (inr true, s1) ->
       dirty (self s1) = ∅ /\ sync s1 = (inr true, s1)).
Proof.
  intros H. destruct (H staged0 (after sync staged0)) as [D _]; [by_eval|].
  apply (f_equal elements) in D. vm_compute in D. discriminate.
Qed.

(** C3.  [close_project] calls [sync_project], not [sync].  In the run
    [opened3] (opened at version 3, nothing written since) [sync] does
    nothing, while [close_project] sends one upload, that of a record
    with version 4.  In the run [conflict] (a file staged, the record
    moved to version 4 by someone else) [sync] raises, while
    [close_project] returns, uploads nothing but the record, which it
    overwrites with its own version 4, and clears the context. *)
Theorem close_project_writes_record_unchecked :
  elements (dirty (self opened3)) = []
  /\ last_version (self opened3) = Some 3%Z
  /\ stored opened3 "states/db/prod" = Some (MetaJson 3 "bob@desk")
  /\ sync opened3 = (inr true, opened3)
  /\ (close_project opened3).1 = inr tt
  /\ stored (after close_project opened3) "states/db/prod"
     = Some (MetaJson 4 "alice@laptop")
  /\ requests (env (after close_project opened3))
     = (requests (env opened3) ++ [PutObject "states/db/prod"])%list
  /\ elements (dirty (self conflict)) = [["a"; "prod"; "db"; "dreamer-k3x"; "tmp"]]
  /\ stored conflict "states/db/prod" = Some (MetaJson 4 "bob@desk")
  /\ (sync conflict).1 = inl critical
  /\ (close_project conflict).1 = inr tt
  /\ stored (after close_project conflict) "states/db/prod"
     = Some (MetaJson 4 "alice@laptop")
  /\ requests (env (after close_project conflict))
     = (requests (env conflict) ++ [PutObject "states/db/prod"])%list
  /\ default_module (self (after close_project conflict)) = None
  /\ default_project (self (after close_project conflict)) = None
  /\ last_version (self (after close_project conflict)) = None.
Proof. repeat split; by_eval. Qed.

(** C4, amended.  [__exit__] calls [sync].  With no exception in flight
    and a [sync] that returns, the staging directory and all below it
    are removed, nothing is logged, and the scope ends normally.  With
    an exception in flight, [__exit__] leaves the filesystem as [sync]
    left it and logs the two lines, the first with the path of the
    staging directory; the caller then sees the exception in flight if
    [sync] returned, and the exception of [sync] if [sync] raised.  With
    no exception in flight and a [sync] that raises, the two lines are
    logged and the caller sees the exception of [sync]. *)
Theorem scoped_exit :
  (forall s b s1,
     sync s = (inr b, s1) ->
     local_dir (self s) ≠ [] ->
     is_dir (fs (env s1)) (local_dir (self s)) = true ->
     exists s2,
       __exit__ None s = (inr false, s2)
       /\ (forall q, local_dir (self s) `suffix_of` q -> node_at (fs (env s2)) q = None)
       /\ log (env s2) = log (env s1))
  /\ (forall s e0 r s1,
        sync s = (r, s1) ->
        exists s2,
          __exit__ (Some e0) s = (match r with inl e => inl e | inr _ => inr false end, s2)
          /\ fs (env s2) = fs (env s1)
          /\ log (env s2) = (log (env s1) ++ exit_messages (local_dir (self s)))%list)
  /\ (forall A (body : M state A) s0 e0 s r s1,
        body s0 = (inl e0, s) -> sync s = (r, s1) ->
        (with_provider body s0).1 = inl (match r with inl e => e | inr _ => e0 end))
  /\ (forall s e s1,
        sync s = (inl e, s1) ->
        is_dir (fs (env s1)) (local_dir (self s)) = true ->
        exists s2,
          __exit__ None s = (inl e, s2)
          /\ log (env s2) = (log (env s1) ++ exit_messages (local_dir (self s)))%list).
Proof.
  split; [exact exit_clean|]. split; [exact exit_in_flight|].
  split; [exact @with_provider_raised | exact exit_sync_failed].
Qed.

Lemma scoped_exit_witness :
  (exists s2,
     __exit__ None staged0 = (inr false, s2)
     /\ (forall q, local_dir (self staged0) `suffix_of` q -> node_at (fs (env s2)) q = None)
     /\ log (env s2) = log (env (after sync staged0)))
  /\ (with_provider (throw step_failed : M state unit) staged0).1 = inl step_failed
  /\ (with_provider (throw step_failed : M state unit) conflict).1 = inl critical
  /\ (exists s2,
        __exit__ None conflict = (inl critical, s2)
        /\ log (env s2)
           = (log (env (after sync conflict)) ++ exit_messages (local_dir (self conflict)))%list).
Proof.
  destruct scoped_exit as (H1 & _ & H3 & H4).
  split; [|split; [|split]].
  - apply (H1 staged0 true (after sync staged0)).
    + by_eval.
    + vm_compute. discriminate.
    + by_eval.
  - apply (H3 unit (throw step_failed) staged0 step_failed staged0
              (inr true) (after sync staged0)).
    + reflexivity.
    + by_eval.
  - apply (H3 unit (throw step_failed) conflict step_failed conflict
              (inl critical) (after sync conflict)).
    + reflexivity.
    + by_eval.
  - apply (H4 conflict critical (after sync conflict)).
    + by_eval.
    + by_eval.
Defined.

(** C4 as stated fails: when [sync] raises while an exception is in
    flight, the caller sees the exception of [sync], not the one that
    was in flight.  The run is [conflict] with a failed step. *)
Lemma exit_replaces_exception_in_flight :
  ~ (forall (s : state) (e0 : exn),
       (with_provider (throw e0 : M state unit) s).1 = inl e0).
Proof.
  intros H. specialize (H conflict step_failed).
  vm_compute in H. discriminate H.
Qed.

(** With no exception in flight and a [sync] that raises, [__exit__]
    removes the staging directory all the same, and then logs that it
    has not been removed. *)
Example exit_removes_staging_after_failed_sync :
  (__exit__ None conflict).1 = inl critical
  /\ map_to_list (fs (env (after (__exit__ None) conflict))) = [(["tmp"], Dir)]
  /\ log (env (after (__exit__ None) conflict)) = exit_messages tmp.
Proof. repeat split; by_eval. Qed.

(** C5.  In the run [refused] the bucket holds the record of [db/prod],
    at version 3, and S3 answers the request for it with a 403:
    [open_project] returns and leaves [last_version] at [None], as for
    a project that was never synced.  In the run [unreachable] the
    request fails with an error that is not a [ClientError], and that
    one does reach the caller. *)
Theorem open_project_takes_refusal_for_absence :
  stored refused "states/db/prod" = Some (MetaJson 3 "bob@desk")
  /\ faults (env refused) !! "states/db/prod" = Some (ClientError "403")
  /\ (open_project "db" "prod" refused).1 = inr tt
  /\ last_version (self (after (open_project "db" "prod") refused)) = None
  /\ default_module (self (after (open_project "db" "prod") refused)) = Some "db"
  /\ default_project (self (after (open_project "db" "prod") refused)) = Some "prod"
  /\ (open_project "db" "prod" unreachable).1 = inl (Exc EndpointConnectionError None).
Proof. repeat split; by_eval. Qed.

(** C6, amended.  [get] is called for a file of which the staging
    directory has no copy; the module, the project and the file have
    plain names.  When the object is there and the transport works, it
    is fetched into the staging directory and the staging path is
    returned.  When the fetch fails, for whatever reason, [get]
    raises [FileNotFoundError] with the URL of the object: for a missing
    object (the 404 of S3) and for any other failure of the transport
    alike; the failure itself is kept as the cause only. *)
Theorem get_turns_any_fetch_failure_into_not_found s fn project module pr mo fs1 :
  _get_project_and_module project module s = (inr (pr, mo), s) ->
  plain mo = true -> plain pr = true -> plain fn = true ->
  mkdir_parents true (fs (env s)) (pr :: mo :: local_dir (self s)) = inr fs1 ->
  node_at fs1 (fn :: pr :: mo :: local_dir (self s)) = None ->
  let file_path := fn :: pr :: mo :: local_dir (self s) in
  let key := prefix (self s) ++ join "/" [mo; pr; fn] in
  (forall obj,
     faults (env s) !! key = None -> objects (env s) !! key = Some obj ->
     exists s',
       get fn project module s = (inr file_path, s')
       /\ node_at (fs (env s')) file_path = Some (File (body obj)))
  /\ (faults (env s) !! key = None -> objects (env s) !! key = None ->
      (get fn project module s).1
      = inl (Exc (FileNotFoundError (s3_url s key)) (Some (ClientError "404"))))
  /\ (forall k,
        faults (env s) !! key = Some k ->
        (get fn project module s).1
        = inl (Exc (FileNotFoundError (s3_url s key)) (Some k))).
Proof.
  intros Hctx _ _ _ Hdir Hmiss file_path key. split; [|split].
  - intros obj Hf Ho.
    rewrite (get_miss_found s fn project module pr mo fs1 Hctx Hdir Hmiss obj Hf Ho).
    eexists. split; [reflexivity|]. cbn. by rewrite node_at_insert_eq.
  - intros Hf Ho.
    by rewrite (get_miss_absent s fn project module pr mo fs1 Hctx Hdir Hmiss Hf Ho).
  - intros k Hf.
    by rewrite (get_miss_fault s fn project module pr mo fs1 Hctx Hdir Hmiss k Hf).
Qed.

(** The run [offline]: [db/prod] is open, [a] is in the bucket, and the
    connection fails on it. *)
Lemma get_turns_any_fetch_failure_into_not_found_witness :
  (get "a" None None offline).1
  = inl (Exc (FileNotFoundError "s3://bucket/states/db/prod/a")
             (Some EndpointConnectionError)).
Proof.
  destruct (get_turns_any_fetch_failure_into_not_found offline "a" None None "prod" "db"
              (fs (env offline))) as (_ & _ & H).
  - by_eval.
  - reflexivity.
  - reflexivity.
  - reflexivity.
  - by_eval.
  - by_eval.
  - apply (H EndpointConnectionError). by_eval.
Defined.

(** C6 as stated fails: a failure that is not "object not found" does
    not reach the caller as it is.  In the run [offline] the connection
    error on [a] comes out of [get] as a [FileNotFoundError]. *)
Lemma get_hides_transport_failure :
  ~ (forall s fn pr mo k,
       default_project (self s) = Some pr -> default_module (self s) = Some mo ->
       path_exists (fs (env s)) (fn :: pr :: mo :: local_dir (self s)) = false ->
       faults (env s) !! (prefix (self s) ++ join "/" [mo; pr; fn]) = Some k ->
       k ≠ ClientError "404" ->
       (get fn None None s).1 = inl (Exc k None)).
Proof.
  intros H.
  specialize (H offline "a" "prod" "db" EndpointConnectionError).
  assert ((get "a" None None offline).1
          = inl (Exc (FileNotFoundError "s3://bucket/states/db/prod/a")
                     (Some EndpointConnectionError))) as E by by_eval.
  rewrite E in H. discriminate H.
  - by_eval.
  - by_eval.
  - by_eval.
  - by_eval.
  - discriminate.
Qed.

(** C8.  The bucket holds the record of [db/prod] and its files [a] and
    [b]; a provider is made and [delete_project] is called with
    [recursive].  The two files are deleted before the record, and the
    bucket is left empty; but [project_exists], asked next on the same
    provider, answers from the listing cached before the deletion, and
    says true. *)
Theorem project_exists_after_delete_project :
  let s := fresh (world_of bucket3 ∅) in
  let s' := after (delete_project "prod" (Some "db") true) s in
  (delete_project "prod" (Some "db") true s).1 = inr tt
  /\ requests (env s')
     = [ListObjects "states/"; DeleteObject "states/db/prod/a";
        DeleteObject "states/db/prod/b"; DeleteObject "states/db/prod"]
  /\ map_to_list (objects (env s')) = []
  /\ _bucket_contents (self s') = Some ["db/prod"; "db/prod/a"; "db/prod/b"]
  /\ (project_exists "prod" (Some "db") s').1 = inr true.
Proof. repeat split; by_eval. Qed.

(** C10.  [module_exists] returns true for every module name, in every
    state, and changes nothing. *)
Theorem module_exists_always (module : string) (s : state) :
  module_exists module s = (inr true, s).
Proof. reflexivity. Qed.

End AWSFacts.

(** * The local provider *)

Module LocalFacts.
Import Local.

Lemma local_gpm_run project module s :
  _get_project_and_module project module s =
  match resolve project (default_project (self s)) with
  | Some p =>
      match resolve module (default_module (self s)) with
      | Some m => (inr (p, m), s)
      | None => (inl no_default, s)
      end
  | None => (inl no_default, s)
  end.
Proof.
  unfold _get_project_and_module. munfold. cbn.
  destruct project, module, (default_project (self s)), (default_module (self s)); reflexivity.
Qed.

(** What [ensure_dir] does, by what is at [d]. *)
Lemma ensure_dir_run d s :
  ensure_dir d s =
  if path_exists (fs s) d then (inr tt, s)
  else match mkdir false (fs s) d with
       | inl k => (inl (Exc k None), s)
       | inr fs1 => (inr tt, set_fs fs1 s)
       end.
Proof.
  unfold ensure_dir, fs_step. munfold. cbn.
  destruct (path_exists (fs s) d); cbn; [reflexivity|].
  destruct (mkdir false (fs s) d); reflexivity.
Qed.


Lemma path_exists_present fs p : path_exists fs p = true <-> present fs p.
Proof.
  unfold path_exists, present. destruct (node_at fs p); split; done.
Qed.

(** [ensure_dir d] never answers "not found" when the parent of [d] is
    there, and leaves [d] there when it succeeds. *)
Lemma ensure_dir_ok d s s' :
  ensure_dir d s = (inr tt, s') ->
  self s' = self s /\ present (fs s') d
  /\ (forall q, q ≠ d -> node_at (fs s') q = node_at (fs s) q).
Proof.
  rewrite ensure_dir_run. destruct (path_exists (fs s) d) eqn:E.
  - intros [= <-]. split; [done|]. split; [by apply path_exists_present | done].
  - destruct (mkdir false (fs s) d) as [k|fs1] eqn:K; [done|].
    intros [= <-]. cbn. split; [done|].
    pose proof (mkdir_inr _ _ _ _ K) as D.
    split; [exists Dir; by apply is_dir_node|].
    intros q Hq. unfold mkdir in K.
    destruct (os_mkdir (fs s) d) as [k|fs2] eqn:O.
    + destruct k; cbn in K; done.
    + injection K as <-. apply os_mkdir_inr in O as (_ & _ & ->).
      by apply node_at_insert_ne.
Qed.





Lemma local_delete_project_missing s project module mo recursive :
  resolve module (default_module (self s)) = Some mo ->
  node_at (fs s) (project :: mo :: base_dir (self s)) = None ->
  delete_project project module recursive s =
    (inl (Exc (FileNotFoundError (path_str (project :: mo :: base_dir (self s)))) None), s).
Proof.
  intros Hm N. unfold delete_project. rewrite bind_run, local_gpm_run, Hm. cbn.
  rewrite bind_run. cbn. unfold fs_step. munfold. unfold rmtree, rmdir.
  destruct recursive; by rewrite N.
Qed.

Lemma local_delete_project_empty s project module mo recursive :
  resolve module (default_module (self s)) = Some mo ->
  node_at (fs s) (project :: mo :: base_dir (self s)) = Some Dir ->
  children (fs s) (project :: mo :: base_dir (self s)) = [] ->
  exists s',
    delete_project project module recursive s = (inr tt, s')
    /\ node_at (fs s') (project :: mo :: base_dir (self s)) = None.
Proof.
  intros Hm N C. unfold delete_project. rewrite bind_run, local_gpm_run, Hm. cbn.
  rewrite bind_run. cbn. unfold fs_step. munfold.
  destruct recursive.
  - destruct (rmtree (fs s) _) as [k|fs1] eqn:R.
    { unfold rmtree in R. by rewrite N in R. }
    eexists. split; [reflexivity|]. cbn.
    eapply rmtree_gone; [|exact R|]; [done | reflexivity].
  - unfold rmdir. rewrite N, C. eexists. split; [reflexivity|]. cbn.
    rewrite node_at_cons. apply lookup_delete_eq.
Qed.

End LocalFacts.

(** * What the claims say of both providers *)

Import Scenario.




(** C9, amended.  On the object-store provider, [delete_project] on a
    project of which the listing shows no file (a project that is not
    there at all is one) returns without raising, when the transport
    does not fail; it logs nothing and asks for the deletion of the
    record.  On the local provider, [delete_project] on a project
    directory that is there and empty removes it without raising; on a
    project that has no directory it raises [FileNotFoundError]. *)
Theorem delete_project_without_files :
  (forall s project module mo recursive,
     resolve module (AWS.default_module (AWS.self s)) = Some mo ->
     AWS.list_fault (AWS.env s) = None ->
     AWS.files_under (mo ++ "/" ++ project ++ "/") (AWS.listing s) = inr [] ->
     AWS.faults (AWS.env s) !! join "/" [AWS.prefix (AWS.self s) ++ mo; project] = None ->
     exists s',
       AWS.delete_project project module recursive s = (inr tt, s')
       /\ AWS.log (AWS.env s') = AWS.log (AWS.env s)
       /\ AWS.objects (AWS.env s')
          = base.delete (join "/" [AWS.prefix (AWS.self s) ++ mo; project])
              (AWS.objects (AWS.env s)))
  /\ (forall s project module mo recursive,
        resolve module (Local.default_module (Local.self s)) = Some mo ->
        node_at (Local.fs s) (project :: mo :: Local.base_dir (Local.self s)) = Some Dir ->
        children (Local.fs s) (project :: mo :: Local.base_dir (Local.self s)) = [] ->
        exists s',
          Local.delete_project project module recursive s = (inr tt, s')
          /\ node_at (Local.fs s') (project :: mo :: Local.base_dir (Local.self s)) = None)
  /\ (forall s project module mo recursive,
        resolve module (Local.default_module (Local.self s)) = Some mo ->
        node_at (Local.fs s) (project :: mo :: Local.base_dir (Local.self s)) = None ->
        Local.delete_project project module recursive s
        = (inl (Exc (FileNotFoundError
                       (path_str (project :: mo :: Local.base_dir (Local.self s)))) None),
           s)).
Proof.
  split; [exact AWSFacts.delete_project_no_files|].
  split; [exact LocalFacts.local_delete_project_empty
         | exact LocalFacts.local_delete_project_missing].
Qed.

(** A bucket without [db/staging], the local provider [local1] with an
    empty [db/prod], and the local provider [local0] without it. *)
Lemma delete_project_without_files_witness :
  (exists s',
     AWS.delete_project "staging" (Some "db") true (fresh (world_of bucket3 ∅)) = (inr tt, s')
     /\ AWS.log (AWS.env s') = []
     /\ AWS.objects (AWS.env s') = base.delete "states/db/staging" bucket3)
  /\ (exists s',
        Local.delete_project "prod" (Some "db") false local1 = (inr tt, s')
        /\ node_at (Local.fs s') ["prod"; "db"; "state"; "srv"] = None)
  /\ Local.delete_project "prod" (Some "db") true local0
     = (inl (Exc (FileNotFoundError "/srv/state/db/prod") None), local0).
Proof.
  destruct delete_project_without_files as (HA & HE & HM). split; [|split].
  - apply (HA (fresh (world_of bucket3 ∅)) "staging" (Some "db") "db" true).
    + reflexivity.
    + reflexivity.
    + by_eval.
    + by_eval.
  - apply (HE local1 "prod" (Some "db") "db" false).
    + reflexivity.
    + by_eval.
    + by_eval.
  - apply (HM local0 "prod" (Some "db") "db" true).
    + reflexivity.
    + by_eval.
Defined.

(** C9 as stated fails on the local provider: a project that does not
    exist has no files, and [delete_project] raises on it.  The run is
    [local0], where [db/prod] has no directory. *)
Lemma local_delete_project_raises_on_missing_project :
  ~ (forall s project module recursive,
       children (Local.fs s) (project :: module :: Local.base_dir (Local.self s)) = [] ->
       (Local.delete_project project (Some module) recursive s).1 = inr tt).
Proof.
  intros H. specialize (H local0 "prod" "db" true).
  assert ((Local.delete_project "prod" (Some "db") true local0).1
          = inl (Exc (FileNotFoundError "/srv/state/db/prod") None)) as E by by_eval.
  rewrite E in H. discriminate H. by_eval.
Qed.


(** * More of the providers *)

(** ** Strings *)

Lemma append_cons a (s r : string) : String a s ++ r = String a (s ++ r).
Proof. reflexivity. Qed.

Lemma append_nil (r : string) : EmptyString ++ r = r.
Proof. reflexivity. Qed.

Lemma append_assoc (a b c : string) : (a ++ b) ++ c = a ++ b ++ c.
Proof.
  induction a as [|x a IH]; [reflexivity|]. rewrite !append_cons. by rewrite IH.
Qed.

Lemma append_inj_l (p a b : string) : p ++ a = p ++ b -> a = b.
Proof.
  induction p as [|x p IH]; [done|]. rewrite !append_cons. intros [= H]. by apply IH.
Qed.

Lemma append_empty_r (a : string) : a ++ EmptyString = a.
Proof. induction a as [|x a IH]; [done|]. by rewrite append_cons, IH. Qed.

Lemma append_ne_self (a : string) x (b : string) : a ++ String x b ≠ a.
Proof.
  intros E. rewrite <- (append_empty_r a) in E at 2. by apply append_inj_l in E.
Qed.

Lemma drop_str_0 s : drop_str 0 s = s.
Proof. by destruct s. Qed.

Lemma drop_str_app (p r : string) : drop_str (String.length p) (p ++ r) = r.
Proof.
  induction p as [|x p IH]; [apply drop_str_0|]. exact IH.
Qed.

Lemma startswith_app (p r : string) : startswith p (p ++ r) = true.
Proof.
  unfold startswith. induction p as [|x p IH]; [by destruct r|].
  rewrite append_cons. cbn. by destruct (ascii_dec x x).
Qed.

Lemma startswith_inv (p s : string) :
  startswith p s = true -> s = p ++ drop_str (String.length p) s.
Proof.
  unfold startswith. revert s. induction p as [|x p IH]; intros s H.
  - by rewrite append_nil, drop_str_0.
  - destruct s as [|y s]; [done|]. cbn in H.
    destruct (ascii_dec x y) as [->|]; [|done].
    rewrite append_cons. f_equal. change (drop_str _ _) with (drop_str (String.length p) s).
    by apply IH.
Qed.

Lemma join_two (a b : string) : join "/" [a; b] = a ++ "/" ++ b.
Proof. reflexivity. Qed.

Lemma join_three (a b c : string) : join "/" [a; b; c] = a ++ "/" ++ b ++ "/" ++ c.
Proof. reflexivity. Qed.

Lemma split_max_0 c s : split_max c 0 s = [s].
Proof.
  induction s as [|a s IH]; [done|]. cbn. destruct (Ascii.eqb a c); [done|]. by rewrite IH.
Qed.

(** Cutting at the first slash, when there is none before it. *)
Lemma split_max_first n (m r : string) :
  slash_free m = true ->
  split_max "/" (S n) (m ++ "/" ++ r) = m :: split_max "/" n r.
Proof.
  induction m as [|a m IH]; intros F.
  - reflexivity.
  - cbn in F. apply andb_true_iff in F as [Fa F]. rewrite append_cons.
    cbn. apply negb_true_iff in Fa. rewrite Fa. by rewrite (IH F).
Qed.

Lemma split_all_first (m r : string) :
  slash_free m = true ->
  split_all "/" (m ++ "/" ++ r) = m :: split_all "/" r.
Proof.
  induction m as [|a m IH]; intros F.
  - reflexivity.
  - cbn in F. apply andb_true_iff in F as [Fa F]. rewrite append_cons.
    cbn. apply negb_true_iff in Fa. rewrite Fa. by rewrite (IH F).
Qed.

Lemma split_all_slash_free (m : string) : slash_free m = true -> split_all "/" m = [m].
Proof.
  induction m as [|a m IH]; intros F; [done|].
  cbn in F. apply andb_true_iff in F as [Fa F]. cbn.
  apply negb_true_iff in Fa. rewrite Fa. by rewrite (IH F).
Qed.

(** Two strings cut at their first slash. *)
Lemma slash_cut_inj (m m' r r' : string) :
  slash_free m = true -> slash_free m' = true ->
  m ++ "/" ++ r = m' ++ "/" ++ r' -> m = m' /\ r = r'.
Proof.
  revert m'. induction m as [|a m IH]; intros [|a' m'] F F'; rewrite ?append_cons, ?append_nil.
  - by intros [= ->].
  - intros [= <- _]. cbn in F'. done.
  - intros [= -> _]. cbn in F. done.
  - intros [= -> H]. cbn in F, F'.
    apply andb_true_iff in F as [_ F]. apply andb_true_iff in F' as [_ F'].
    destruct (IH m' F F' H) as [-> ->]. done.
Qed.

Lemma slash_free_no_cut (m m' r : string) :
  slash_free m = true -> m ≠ m' ++ "/" ++ r.
Proof.
  revert m'. induction m as [|a m IH]; intros [|a' m'] F; rewrite ?append_cons, ?append_nil.
  - done.
  - done.
  - intros [= -> _]. cbn in F. done.
  - intros [= -> H]. cbn in F. apply andb_true_iff in F as [_ F]. by eapply IH.
Qed.

(** ** More of the filesystem *)

(** Making directories leaves what is there as it is. *)
Lemma os_mkdir_keeps fs p fs' q n :
  os_mkdir fs p = inr fs' -> node_at fs q = Some n -> node_at fs' q = Some n.
Proof.
  intros H Hq. apply os_mkdir_inr in H as (N & _ & ->).
  rewrite node_at_insert_ne; [done|]. intros ->. congruence.
Qed.

Lemma mkdir_keeps eo fs p fs' q n :
  mkdir eo fs p = inr fs' -> node_at fs q = Some n -> node_at fs' q = Some n.
Proof.
  unfold mkdir. destruct (os_mkdir fs p) as [e|fs1] eqn:E.
  - destruct e; try done; destruct (eo && is_dir fs p); try done; by intros [= <-].
  - intros [= <-]. by eapply os_mkdir_keeps.
Qed.


Lemma is_dir_insert_child (fs : filesystem) x base n :
  is_dir (<[x :: base := n]> fs) base = is_dir fs base.
Proof. unfold is_dir. rewrite node_at_insert_ne; [done | list_neq]. Qed.

Lemma path_exists_insert (fs : filesystem) p n :
  p ≠ [] -> path_exists (<[p := n]> fs) p = true.
Proof. intros H. unfold path_exists. by rewrite node_at_insert_eq. Qed.

Lemma well_formed_insert (fs : filesystem) d n :
  well_formed fs -> node_at fs d = None -> is_dir fs (parent d) = true ->
  well_formed (<[d := n]> fs).
Proof.
  intros W N D.
  assert (forall q, is_dir fs q = true -> is_dir (<[d := n]> fs) q = true) as K.
  { intros q Hq. unfold is_dir in *. rewrite node_at_insert_ne; [done|].
    intros ->. by rewrite N in Hq. }
  apply map_Forall_insert_2; [by apply K|].
  intros q x Hq. apply K. by apply (W q x).
Qed.

Lemma well_formed_parent (fs : filesystem) x p :
  well_formed fs -> is_Some (node_at fs (x :: p)) -> is_dir fs p = true.
Proof. intros W [n Hn]. rewrite node_at_cons in Hn. by apply (W _ _ Hn). Qed.

Lemma elem_of_children (fs : filesystem) p x :
  x ∈ children fs p <-> is_Some (fs !! (x :: p)).
Proof.
  unfold children. rewrite list_elem_of_omap. split.
  - intros (q & Hq & E). destruct q as [|y q]; [done|].
    destruct (bool_decide (q = p)) eqn:B; [|done]. injection E as ->.
    apply bool_decide_eq_true in B as ->. by apply elem_of_elements, elem_of_dom in Hq.
  - intros H. exists (x :: p). split; [by apply elem_of_elements, elem_of_dom|].
    by rewrite bool_decide_eq_true_2.
Qed.

Lemma NoDup_omap_inj {A B} (f : A -> option B) (l : list A) :
  (forall x y z, f x = Some z -> f y = Some z -> x = y) -> NoDup l -> NoDup (omap f l).
Proof.
  intros Hf. induction 1 as [|x l Hx ND IH]; cbn; [constructor|].
  destruct (f x) as [z|] eqn:E; [|exact IH]. constructor; [|exact IH].
  intros I. apply list_elem_of_omap in I as (y & Hy & Ey).
  by rewrite (Hf x y z E Ey) in Hx.
Qed.

Lemma NoDup_children (fs : filesystem) p : NoDup (children fs p).
Proof.
  unfold children. apply NoDup_omap_inj; [|apply NoDup_elements].
  intros [|x q] [|y r] z; try done.
  destruct (bool_decide (q = p)) eqn:B1; [|done].
  destruct (bool_decide (r = p)) eqn:B2; [|done].
  apply bool_decide_eq_true in B1 as ->. apply bool_decide_eq_true in B2 as ->. congruence.
Qed.

Global Instance str_le_total : Total str_le.
Proof. intros a b. apply String.leb_total. Qed.

Lemma slashes_app (a b : string) : slashes (a ++ b) = slashes a + slashes b.
Proof.
  induction a as [|x a IH]; [done|]. rewrite append_cons. cbn. rewrite IH. lia.
Qed.

Lemma split_max_length n (s : string) :
  length (split_max "/" n s) = S (min n (slashes s)).
Proof.
  revert n. induction s as [|a s IH]; intros n.
  - cbn. lia.
  - cbn. destruct (Ascii.eqb a "/").
    + destruct n as [|n]; [done|]. cbn. rewrite IH. lia.
    + specialize (IH n). destruct (split_max "/" n s); cbn in *; lia.
Qed.

(** ** The object-store provider: keys, listings, deletion *)

Module AWSMore.
Import AWS AWSFacts.

(** X1.  Key addressing.  For module and project names without a
    slash, the key [_get_s3_key] gives determines the module, the
    project and the file name, and it is never the key of a metadata
    record. *)
Theorem s3_keys_do_not_collide s fn fn' pr mo pr' mo' k k' :
  slash_free mo = true -> slash_free pr = true ->
  slash_free mo' = true -> slash_free pr' = true ->
  _get_s3_key fn (Some pr) (Some mo) s = (inr k, s) ->
  _get_s3_key fn' (Some pr') (Some mo') s = (inr k', s) ->
  (k = k' -> mo = mo' /\ pr = pr' /\ fn = fn')
  /\ k ≠ metadata_key s mo' pr'.
Proof.
  intros Fm Fp Fm' Fp'.
  rewrite (get_s3_key_run fn (Some pr) (Some mo) s pr mo) by done.
  rewrite (get_s3_key_run fn' (Some pr') (Some mo') s pr' mo') by done.
  intros [= <-] [= <-]. rewrite !join_three. split.
  - intros H. apply append_inj_l in H.
    apply slash_cut_inj in H as [-> H]; [|done..].
    apply slash_cut_inj in H as [-> ->]; done.
  - unfold metadata_key. rewrite join_two. intros H. apply append_inj_l in H.
    apply slash_cut_inj in H as [-> H]; [|done..].
    symmetry in H. by apply slash_free_no_cut in H.
Qed.

Lemma s3_keys_do_not_collide_witness :
  ("states/db/prod/a" = "states/db/prod/b" -> "db" = "db" /\ "prod" = "prod" /\ "a" = "b")
  /\ "states/db/prod/a" ≠ metadata_key (Scenario.fresh (Scenario.world_of ∅ ∅)) "db" "prod".
Proof.
  apply (s3_keys_do_not_collide (Scenario.fresh (Scenario.world_of ∅ ∅))
           "a" "b" "prod" "db" "prod" "db"); reflexivity.
Defined.

Lemma files_under_slash_free (m p : string) (keys : list string) :
  slash_free m = true -> slash_free p = true ->
  files_under (m ++ "/" ++ p ++ "/") keys
  = inr (map (drop_str (String.length (m ++ "/" ++ p ++ "/")))
           (List.filter (startswith (m ++ "/" ++ p ++ "/")) keys)).
Proof.
  intros Fm Fp. induction keys as [|key keys IH]; [done|].
  cbn [files_under List.filter].
  destruct (startswith (m ++ "/" ++ p ++ "/") key) eqn:E; [|exact IH].
  apply startswith_inv in E. rewrite IH. cbn [map].
  set (rest := drop_str _ key) in *.
  assert (split_max "/" 2 key !! 2%nat = Some rest) as ->; [|done].
  rewrite E. rewrite !append_assoc.
  rewrite (split_max_first 1 m) by done. rewrite (split_max_first 0 p) by done.
  by rewrite split_max_0.
Qed.

Lemma files_under_returns (m p : string) (keys : list string) :
  exists l, files_under (m ++ "/" ++ p ++ "/") keys = inr l.
Proof.
  induction keys as [|key keys [l IH]]; [by eexists|].
  cbn [files_under].
  destruct (startswith (m ++ "/" ++ p ++ "/") key) eqn:E; [|by eexists].
  apply startswith_inv in E.
  assert (2 < length (split_max "/" 2 key)) as L.
  { rewrite split_max_length, E, !slashes_app.
    change (slashes "/") with 1%nat. lia. }
  destruct (lookup_lt_is_Some_2 _ _ L) as [fn ->]. rewrite IH. by eexists.
Qed.

(** X2.  [get_files], when the listing does not fail, never raises: no
    key that starts with [module/project/] is short of a third part.
    For module and project names without a slash it returns, in the
    order of the listing, what follows [module/project/] in each key of
    the listing that starts with it. *)
Theorem get_files_lists_the_keys_of_the_project s project module pr mo :
  _get_project_and_module project module s = (inr (pr, mo), s) ->
  list_fault (env s) = None ->
  (exists l, (get_files project module s).1 = inr l)
  /\ (slash_free mo = true -> slash_free pr = true ->
      (get_files project module s).1
      = inr (map (drop_str (String.length (mo ++ "/" ++ pr ++ "/")))
               (List.filter (startswith (mo ++ "/" ++ pr ++ "/")) (listing s)))).
Proof.
  intros Hctx Hl. apply gpm_inv in Hctx as (Hp & Hm & _).
  rewrite (get_files_run s project module pr mo Hp Hm Hl). cbn zeta. split.
  - destruct (files_under_returns mo pr (listing s)) as [l ->]. by eexists.
  - intros Fm Fp. by rewrite files_under_slash_free.
Qed.

Lemma get_files_lists_the_keys_of_the_project_witness :
  (get_files (Some "prod") (Some "db") (Scenario.fresh (Scenario.world_of Scenario.bucket3 ∅))).1
  = inr (map (drop_str (String.length ("db" ++ "/" ++ "prod" ++ "/")))
           (List.filter (startswith ("db" ++ "/" ++ "prod" ++ "/"))
              (listing (Scenario.fresh (Scenario.world_of Scenario.bucket3 ∅))))).
Proof.
  destruct (get_files_lists_the_keys_of_the_project
              (Scenario.fresh (Scenario.world_of Scenario.bucket3 ∅))
              (Some "prod") (Some "db") "prod" "db") as [_ H].
  - reflexivity.
  - reflexivity.
  - apply H; reflexivity.
Defined.

Lemma in_listing_fresh s (k : string) :
  _bucket_contents (self s) = None ->
  k ∈ listing s <-> is_Some (objects (env s) !! (prefix (self s) ++ k)).
Proof.
  intros Hc. unfold listing. rewrite Hc. rewrite list_elem_of_fmap. split.
  - intros (key & -> & Hk). unfold sorted in Hk. rewrite merge_sort_Permutation in Hk.
    apply list_elem_of_In, filter_In in Hk as [Hk Hs].
    apply list_elem_of_In, elem_of_elements, elem_of_dom in Hk.
    apply startswith_inv in Hs. by rewrite <- Hs.
  - intros Hk. exists (prefix (self s) ++ k). split; [by rewrite drop_str_app|].
    unfold sorted. rewrite merge_sort_Permutation.
    apply list_elem_of_In, filter_In. split; [|apply startswith_app].
    by apply list_elem_of_In, elem_of_elements, elem_of_dom.
Qed.

(** X3.  On a provider that has not listed the bucket yet, and when the
    listing does not fail, [project_exists] tells whether the bucket
    holds the metadata record of the project; it changes neither the
    defaults, nor the bucket, nor the filesystem. *)
Theorem project_exists_reads_the_record s project module mo :
  resolve module (default_module (self s)) = Some mo ->
  _bucket_contents (self s) = None ->
  list_fault (env s) = None ->
  exists s',
    project_exists project module s
    = (inr (bool_decide (is_Some (objects (env s) !! metadata_key s mo project))), s')
    /\ default_module (self s') = default_module (self s)
    /\ default_project (self s') = default_project (self s)
    /\ objects (env s') = objects (env s)
    /\ fs (env s') = fs (env s).
Proof.
  intros Hm Hc Hl. unfold project_exists.
  rewrite bind_run, gpm_run. cbn [resolve]. rewrite Hm. cbn.
  rewrite bind_run, bucket_contents_run by done. rewrite Hc. munfold. cbn.
  match goal with |- exists s', (_, ?b) = _ /\ _ => exists b end.
  split; [|done]. f_equal. f_equal.
  apply bool_decide_ext. rewrite (in_listing_fresh s _ Hc).
  unfold metadata_key. by rewrite join_two.
Qed.

Lemma project_exists_reads_the_record_witness :
  (project_exists "prod" (Some "db") (Scenario.fresh (Scenario.world_of Scenario.bucket3 ∅))).1
  = inr true.
Proof.
  destruct (project_exists_reads_the_record
              (Scenario.fresh (Scenario.world_of Scenario.bucket3 ∅)) "prod" (Some "db") "db")
    as (s' & H & _); [reflexivity..|].
  rewrite H. vm_compute. reflexivity.
Defined.

(** X4.  Without a project (or module) argument and without a default
    to stand for it, the methods that address a file raise the
    [ValueError] of [_get] and leave everything as it was: no directory
    is made, no request is sent. *)
Theorem no_context_raises_before_anything_is_done s fn project module :
  resolve project (default_project (self s)) = None
  \/ resolve module (default_module (self s)) = None ->
  get fn project module s = (inl no_default, s)
  /\ get_rw fn project module s = (inl no_default, s)
  /\ delete fn project module s = (inl no_default, s)
  /\ get_files project module s = (inl no_default, s)
  /\ url_for fn project module s = (inl no_default, s).
Proof.
  intros H.
  assert (_get_project_and_module project module s = (inl no_default, s)) as G.
  { rewrite gpm_run. destruct H as [-> | ->]; [done|]. by destruct (resolve project _). }
  assert (_ensure_local_path project module s = (inl no_default, s)) as E.
  { unfold _ensure_local_path. by rewrite bind_run, G. }
  repeat split.
  - unfold get. by rewrite bind_run, E.
  - unfold get_rw. by rewrite bind_run, E.
  - unfold delete. by rewrite bind_run, G.
  - unfold get_files. by rewrite bind_run, G.
  - unfold url_for. rewrite bind_run. cbn. unfold _get_s3_key. by rewrite !bind_run, G.
Qed.

Lemma no_context_raises_before_anything_is_done_witness :
  let s := Scenario.fresh (Scenario.world_of Scenario.bucket3 ∅) in
  get "a" None (Some "db") s = (inl no_default, s)
  /\ get_rw "a" None (Some "db") s = (inl no_default, s)
  /\ delete "a" None (Some "db") s = (inl no_default, s)
  /\ get_files None (Some "db") s = (inl no_default, s)
  /\ url_for "a" None (Some "db") s = (inl no_default, s).
Proof.
  apply (no_context_raises_before_anything_is_done
           (Scenario.fresh (Scenario.world_of Scenario.bucket3 ∅)) "a" None (Some "db")).
  left. reflexivity.
Defined.

(** ** Synchronisation *)

(** What [get_remote_version] raises when no project is open. *)
Lemma get_remote_version_needs_project s :
  default_module (self s) = None \/ default_project (self s) = None ->
  get_remote_version s
  = (inl (Exc (DreamerException
                 "get_remote_version() called without default_module and default_project set")
              None), s).
Proof.
  intros H. unfold get_remote_version. rewrite bind_run. cbn.
  destruct H as [-> | ->]; [done|]. by destruct (default_module (self s)).
Qed.

(** X5.  [sync] needs an open project when there is something to send:
    with a dirty file, no project deleted in this run and no default
    module or project, it raises the [DreamerException] of
    [get_remote_version] and sends nothing.  This is the case after a
    [close_project] that returned, since the dirty set outlives it. *)
Theorem sync_needs_an_open_project :
  let refusal :=
    Exc (DreamerException
           "get_remote_version() called without default_module and default_project set") None in
  (forall s,
     _deleted_project (self s) = false -> dirty (self s) ≠ ∅ ->
     default_module (self s) = None \/ default_project (self s) = None ->
     sync s = (inl refusal, s))
  /\ (forall s s1,
        _deleted_project (self s) = false -> dirty (self s) ≠ ∅ ->
        close_project s = (inr tt, s1) ->
        sync s1 = (inl refusal, s1)).
Proof.
  intros refusal.
  assert (forall s,
     _deleted_project (self s) = false -> dirty (self s) ≠ ∅ ->
     default_module (self s) = None \/ default_project (self s) = None ->
     sync s = (inl refusal, s)) as H.
  { intros s Hdel Hdirty Hdef. unfold sync. rewrite bind_run. cbn.
    rewrite Hdel, bool_decide_eq_false_2 by done. cbn.
    by rewrite bind_run, get_remote_version_needs_project. }
  split; [exact H|].
  intros s s1 Hdel Hdirty Hc. apply H.
  - pose proof (sync_project_frame (fun s => _deleted_project (self s))
                  ltac:(done) ltac:(done) ltac:(done) s) as F.
    unfold close_project in Hc. rewrite bind_run in Hc.
    destruct (sync_project s) as [[e|v] sa]; [done|]. cbn in F, Hc.
    injection Hc as <-. cbn. by rewrite F.
  - pose proof (sync_project_frame (fun s => dirty (self s))
                  ltac:(done) ltac:(done) ltac:(done) s) as F.
    unfold close_project in Hc. rewrite bind_run in Hc.
    destruct (sync_project s) as [[e|v] sa]; [done|]. cbn in F, Hc.
    injection Hc as <-. cbn. by rewrite F.
  - unfold close_project in Hc. rewrite bind_run in Hc.
    destruct (sync_project s) as [[e|v] sa]; [done|]. cbn in Hc.
    injection Hc as <-. by left.
Qed.

Lemma sync_needs_an_open_project_witness :
  sync (after close_project Scenario.staged0)
  = (inl (Exc (DreamerException
                 "get_remote_version() called without default_module and default_project set")
              None),
     after close_project Scenario.staged0).
Proof.
  destruct sync_needs_an_open_project as [_ H].
  apply (H Scenario.staged0 (after close_project Scenario.staged0)).
  - by_eval.
  - eapply nonempty_by_elements. by_eval.
  - by_eval.
Defined.




(** The loop of [sync] over the dirty files. *)
Section Uploads.
Variable a : provider.



End Uploads.



(** ** Reading back *)

(** [get] on a file of which the staging directory has a copy. *)
Lemma get_hit fn project module s pr mo :
  resolve project (default_project (self s)) = Some pr ->
  resolve module (default_module (self s)) = Some mo ->
  is_dir (fs (env s)) (pr :: mo :: local_dir (self s)) = true ->
  path_exists (fs (env s)) (fn :: pr :: mo :: local_dir (self s)) = true ->
  get fn project module s
  = (inr (fn :: pr :: mo :: local_dir (self s)), set_fs (fs (env s)) s).
Proof.
  intros Hp Hm D E. rewrite (get_run fn project module s pr mo Hp Hm). cbn zeta.
  by rewrite (mkdir_parents_again _ _ D), E.
Qed.

(** X7.  A file opened for writing can be read back.  Once [get_rw] has
    returned a path, [get] of the same file returns that path, from the
    staged copy: it sends no request and changes nothing. *)
Theorem get_after_get_rw_reads_the_staged_copy s fn project module p s' :
  get_rw fn project module s = (inr p, s') ->
  get fn project module s' = (inr p, s').
Proof.
  destruct (_ensure_local_path project module s) as [[e0|p0] s0] eqn:E.
  { unfold get_rw. by rewrite bind_run, E. }
  apply ensure_local_path_ok in E as (pr & mo & fs1 & Hp & Hm & Hd).
  rewrite (get_rw_run fn project module s pr mo fs1 Hp Hm Hd). cbn zeta.
  rewrite (get_run fn project module _ pr mo) by assumption. cbn.
  pose proof (mkdir_parents_is_dir _ _ _ _ Hd) as D.
  rewrite (mkdir_parents_again _ _ D).
  set (base := pr :: mo :: local_dir (self s)) in *.
  assert (forall n s2,
            self s2 = self (set_dirty (dirty (self s) ∪ {[fn :: base]}) s) ->
            fs (env s2) = <[fn :: base := n]> fs1 ->
            get fn project module s2 = (inr (fn :: base), set_fs (fs (env s2)) s2)) as Hit.
  { intros n s2 Hs Hf. rewrite (get_hit fn project module s2 pr mo).
    - by rewrite Hs.
    - by rewrite Hs.
    - by rewrite Hs.
    - rewrite Hs, Hf. cbn. fold base. by rewrite is_dir_insert_child.
    - rewrite Hs, Hf. cbn. fold base. by apply path_exists_insert. }
  destruct (path_exists fs1 (fn :: base)) eqn:X.
  { intros [= <- <-]. by rewrite (get_hit fn project module _ pr mo). }
  assert (node_at fs1 (fn :: base) = None) as N.
  { unfold path_exists in X. by destruct (node_at fs1 (fn :: base)). }
  rewrite download_file_run. cbn.
  destruct (faults (env s) !! _); cbn.
  { rewrite touch_new by done. intros [= <- <-]. by erewrite Hit. }
  destruct (objects (env s) !! _); cbn.
  2:{ rewrite touch_new by done. intros [= <- <-]. by erewrite Hit. }
  rewrite write_file_new by done. cbn. intros [= <- <-]. by erewrite Hit.
Qed.

Lemma get_after_get_rw_reads_the_staged_copy_witness :
  get "state.json" None None Scenario.staged0
  = (inr ["state.json"; "prod"; "db"; "dreamer-k3x"; "tmp"], Scenario.staged0).
Proof.
  apply (get_after_get_rw_reads_the_staged_copy Scenario.opened0 "state.json" None None).
  by_eval.
Defined.

(** ** Deleting a project *)

Lemma delete_run fn pr mo s :
  delete fn (Some pr) (Some mo) s = delete_object (prefix (self s) ++ join "/" [mo; pr; fn]) s.
Proof.
  unfold delete. rewrite bind_run, gpm_run. cbn.
  by rewrite bind_run, (get_s3_key_run fn (Some pr) (Some mo) s pr mo).
Qed.

(** The loop of [delete_project] over the files of the project, when
    the transport does not fail. *)
Lemma deletes_run pr mo (l : list string) s :
  faults (env s) = ∅ ->
  exists s',
    for_each l (fun fn => delete fn (Some pr) (Some mo)) s = (inr tt, s')
    /\ self s' = self s /\ faults (env s') = ∅
    /\ forall k,
         (k ∈ map (fun fn => prefix (self s) ++ join "/" [mo; pr; fn]) l ->
          objects (env s') !! k = None)
         /\ (k ∉ map (fun fn => prefix (self s) ++ join "/" [mo; pr; fn]) l ->
             objects (env s') !! k = objects (env s) !! k).
Proof.
  revert s. induction l as [|x l IH]; intros s Hf; cbn [for_each map].
  - exists s. split; [done|]. split; [done|]. split; [done|].
    intros k. split; [|done]. intros H. by apply elem_of_nil in H.
  - rewrite bind_run, delete_run, delete_object_run. cbn zeta. rewrite Hf, lookup_empty.
    match goal with |- context [for_each l _ ?sx] =>
      destruct (IH sx) as (s' & -> & Hs & Hf' & Hk); [exact Hf|]
    end.
    cbn in Hs, Hk. exists s'. split; [done|]. split; [done|]. split; [done|].
    intros k. destruct (Hk k) as [K1 K2]. split.
    + intros H. apply elem_of_cons in H as [-> | H]; [|by apply K1].
      destruct (decide (prefix (self s) ++ join "/" [mo; pr; x]
                        ∈ map (fun fn => prefix (self s) ++ join "/" [mo; pr; fn]) l))
        as [I|I]; [by apply K1|].
      rewrite (proj2 (Hk _) I). apply lookup_delete_eq.
    + intros H. apply not_elem_of_cons in H as [H1 H2].
      rewrite (K2 H2). by apply lookup_delete_ne.
Qed.

(** X8.  [delete_project] with [recursive], for module and project
    names without a slash, on a provider that has not listed the bucket
    yet and with a transport that does not fail: it returns, and then
    the bucket holds neither the record of the project nor any key
    below it, and every other key is as it was. *)
Theorem delete_project_recursive_empties_the_project s project module mo :
  resolve module (default_module (self s)) = Some mo ->
  slash_free mo = true -> slash_free project = true ->
  _bucket_contents (self s) = None ->
  list_fault (env s) = None -> faults (env s) = ∅ ->
  let record := metadata_key s mo project in
  exists s',
    delete_project project module true s = (inr tt, s')
    /\ objects (env s') !! record = None
    /\ (forall rest, objects (env s') !! (record ++ "/" ++ rest) = None)
    /\ (forall k, k ≠ record -> startswith (record ++ "/") k = false ->
                  objects (env s') !! k = objects (env s) !! k).
Proof.
  intros Hm Fm Fp Hc Hl Hf record. unfold delete_project.
  rewrite bind_run, gpm_run. cbn [resolve]. rewrite Hm. cbn.
  rewrite bind_run. cbn. rewrite bind_run.
  set (s0 := (if bool_decide (Some project = default_project (self s))
                 && bool_decide (Some mo = default_module (self s))
              then modify (set_deleted_project true) else mret tt) s).
  assert (exists sa, s0 = (inr tt, sa) /\ env sa = env s
           /\ default_module (self sa) = default_module (self s)
           /\ listing sa = listing s /\ prefix (self sa) = prefix (self s)
           /\ _bucket_contents (self sa) = None)
    as (sa & -> & Henv & Hdm & Hls & Hpf & Hbc).
  { subst s0. destruct (_ && _); eexists; (split; [reflexivity|]); done. }
  rewrite !bind_run.
  rewrite (get_files_run _ _ _ project mo); [|done|done|by rewrite Henv].
  cbn zeta. rewrite files_under_slash_free by done. rewrite Hbc, Hls.
  set (files := map _ (List.filter _ (listing s))).
  match goal with |- context [for_each files _ ?sb] =>
    destruct (deletes_run project mo files sb) as (sc & -> & Hs & Hfc & Hk);
      [cbn; by rewrite Henv|]
  end.
  cbn in Hs, Hk. rewrite Henv, Hpf in Hk.
  rewrite delete_object_run. cbn zeta. rewrite Hfc, lookup_empty.
  assert (join "/" [prefix (self s) ++ mo; project] = record) as Hrec.
  { unfold record, metadata_key. by rewrite !join_two, append_assoc. }
  assert (forall fn, prefix (self s) ++ join "/" [mo; project; fn] = record ++ "/" ++ fn)
    as Hkey.
  { intros fn. unfold record, metadata_key.
    by rewrite join_three, join_two, !append_assoc. }
  eexists. split; [reflexivity|]. cbn. rewrite Hrec. split; [apply lookup_delete_eq|]. split.
  - intros rest. rewrite lookup_delete_ne.
    2:{ intros E. symmetry in E. by apply append_ne_self in E. }
    destruct (objects (env s) !! (record ++ "/" ++ rest)) as [o|] eqn:O.
    + apply (proj1 (Hk _)). apply list_elem_of_fmap. exists rest. split; [by rewrite Hkey|].
      unfold files. apply list_elem_of_fmap. exists (mo ++ "/" ++ project ++ "/" ++ rest).
      split.
      { rewrite <- (append_assoc project "/" rest), <- (append_assoc "/" (project ++ "/") rest),
          <- (append_assoc mo ("/" ++ project ++ "/") rest). by rewrite drop_str_app. }
      apply list_elem_of_In, filter_In. split.
      * apply list_elem_of_In, (in_listing_fresh s); [done|].
        rewrite <- Hkey in O. rewrite join_three in O. by rewrite O.
      * rewrite <- (append_assoc project "/" rest), <- (append_assoc "/" (project ++ "/") rest),
          <- (append_assoc mo ("/" ++ project ++ "/") rest). apply startswith_app.
    + destruct (decide (record ++ "/" ++ rest
                        ∈ map (fun fn => prefix (self s) ++ join "/" [mo; project; fn]) files))
        as [I|I]; [by apply (proj1 (Hk _))|].
      by rewrite (proj2 (Hk _) I).
  - intros k Hne Hst. rewrite lookup_delete_ne by done.
    apply (proj2 (Hk k)). intros I. apply list_elem_of_fmap in I as (fn & -> & _).
    rewrite Hkey, <- append_assoc, startswith_app in Hst. done.
Qed.

(** On the bucket of [bucket3], from a provider just made. *)
Lemma delete_project_recursive_empties_the_project_witness :
  let s := Scenario.fresh (Scenario.world_of Scenario.bucket3 ∅) in
  let record := metadata_key s "db" "prod" in
  exists s',
    delete_project "prod" (Some "db") true s = (inr tt, s')
    /\ objects (env s') !! record = None
    /\ (forall rest, objects (env s') !! (record ++ "/" ++ rest) = None)
    /\ (forall k, k ≠ record -> startswith (record ++ "/") k = false ->
                  objects (env s') !! k = objects (env s) !! k).
Proof.
  apply (delete_project_recursive_empties_the_project
           (Scenario.fresh (Scenario.world_of Scenario.bucket3 ∅)) "prod" (Some "db") "db");
    reflexivity.
Defined.

(** X9.  [delete_project] without [recursive] asks for one deletion,
    that of the record: the files of the project stay in the bucket,
    and nothing is listed.  (The transport does not fail on the key of
    the record.) *)
Theorem delete_project_flat_leaves_the_files s project module mo :
  resolve module (default_module (self s)) = Some mo ->
  faults (env s) !! metadata_key s mo project = None ->
  exists s',
    delete_project project module false s = (inr tt, s')
    /\ requests (env s')
       = (requests (env s) ++ [DeleteObject (metadata_key s mo project)])%list
    /\ objects (env s') = base.delete (metadata_key s mo project) (objects (env s))
    /\ _bucket_contents (self s') = _bucket_contents (self s).
Proof.
  intros Hm Hf. unfold delete_project.
  rewrite bind_run, gpm_run. cbn [resolve]. rewrite Hm. cbn.
  rewrite bind_run. cbn. rewrite bind_run.
  assert (join "/" [prefix (self s) ++ mo; project] = metadata_key s mo project) as ->.
  { unfold metadata_key. by rewrite !join_two, append_assoc. }
  destruct (_ && _); munfold; cbn; rewrite delete_object_run; cbn; rewrite Hf;
    eexists; (split; [reflexivity|]); done.
Qed.

Lemma delete_project_flat_leaves_the_files_witness :
  let s := Scenario.fresh (Scenario.world_of Scenario.bucket3 ∅) in
  exists s',
    delete_project "prod" (Some "db") false s = (inr tt, s')
    /\ requests (env s')
       = (requests (env s) ++ [DeleteObject (metadata_key s "db" "prod")])%list
    /\ objects (env s') = base.delete (metadata_key s "db" "prod") (objects (env s))
    /\ _bucket_contents (self s') = _bucket_contents (self s).
Proof.
  apply (delete_project_flat_leaves_the_files
           (Scenario.fresh (Scenario.world_of Scenario.bucket3 ∅)) "prod" (Some "db") "db");
    reflexivity.
Defined.

(** ** Construction *)







(** ** Versions *)

(** [get_remote_version] on an open project, when the staging directory
    can be made and the transport works on the key of the record. *)
Lemma get_remote_version_run s m p fs1 :
  default_module (self s) = Some m -> default_project (self s) = Some p ->
  mkdir_parents true (fs (env s)) (p :: m :: local_dir (self s)) = inr fs1 ->
  is_dir fs1 ("meta.json" :: p :: m :: local_dir (self s)) = false ->
  faults (env s) !! metadata_key s m p = None ->
  let s1 := set_fs fs1 (sent (GetObject (metadata_key s m p)) s) in
  get_remote_version s =
  match objects (env s) !! metadata_key s m p with
  | None => (inr None, s1)
  | Some obj =>
      let s2 := set_fs (<["meta.json" :: p :: m :: local_dir (self s) := File (body obj)]> fs1)
                  (sent (GetObject (metadata_key s m p)) s) in
      match json_load (body obj) with
      | inl k => (inl (Exc k None), s2)
      | inr d => (inr (Some d.1), s2)
      end
  end.
Proof.
  intros Hm Hp Hd Hnd Hf. unfold get_remote_version. rewrite bind_run. cbn. rewrite Hm, Hp.
  unfold try_except, get_metadata. rewrite !bind_run. cbn. rewrite bind_run.
  rewrite (ensure_local_path_run _ _ _ p m) by done. rewrite Hd. cbn.
  rewrite bind_run, download_file_run. cbn.
  assert (prefix (self s) ++ m ++ "/" ++ p = metadata_key s m p) as -> by done.
  rewrite Hf. destruct (objects (env s) !! metadata_key s m p) as [obj|]; [|done].
  pose proof (mkdir_parents_is_dir _ _ _ _ Hd) as D.
  assert (write_file fs1 ("meta.json" :: p :: m :: local_dir (self s)) (body obj)
          = inr (<["meta.json" :: p :: m :: local_dir (self s) := File (body obj)]> fs1)) as ->.
  { unfold write_file, is_dir in *.
    destruct (node_at fs1 ("meta.json" :: p :: m :: local_dir (self s))) as [[|c]|];
      [done|..]; by apply create_dir. }
  cbn. unfold fs_read. munfold. cbn. rewrite read_file_written by done.
  by destruct (body obj) as [b|v who].
Qed.

Lemma open_project_run s module project fs1 :
  mkdir_parents true (fs (env s)) (project :: module :: local_dir (self s)) = inr fs1 ->
  is_dir fs1 ("meta.json" :: project :: module :: local_dir (self s)) = false ->
  faults (env s) !! metadata_key s module project = None ->
  match stored s (metadata_key s module project) with
  | None =>
      exists s', open_project module project s = (inr tt, s')
        /\ self s' = self (set_last_version None (set_defaults (Some module) (Some project) s))
        /\ objects (env s') = objects (env s)
  | Some (MetaJson v _) =>
      exists s', open_project module project s = (inr tt, s')
        /\ self s' = self (set_last_version (Some v)
                             (set_defaults (Some module) (Some project) s))
        /\ objects (env s') = objects (env s)
  | Some (Raw _) =>
      exists s', open_project module project s = (inl (Exc JSONDecodeError None), s')
        /\ self s' = self (set_defaults (Some module) (Some project) s)
        /\ objects (env s') = objects (env s)
  end.
Proof.
  intros Hd Hnd Hf. unfold open_project. rewrite bind_run. cbn. rewrite bind_run.
  rewrite (get_remote_version_run _ module project fs1); [|done..]. cbn zeta.
  unfold stored, metadata_key. cbn.
  destruct (objects (env s) !! _) as [[[b|v who] meta]|]; cbn; eexists; done.
Qed.

(** X11.  [open_project] sets the context and reads the version from
    the record of the project, when the staging directory can be made
    and the transport works: the version of the record that a
    [sync_project] has written, [None] when the bucket has no
    record. *)
Theorem open_project_reads_the_version s module project fs1 :
  mkdir_parents true (fs (env s)) (project :: module :: local_dir (self s)) = inr fs1 ->
  is_dir fs1 ("meta.json" :: project :: module :: local_dir (self s)) = false ->
  faults (env s) !! metadata_key s module project = None ->
  let opened v s' :=
    open_project module project s = (inr tt, s')
    /\ default_module (self s') = Some module /\ default_project (self s') = Some project
    /\ last_version (self s') = v
    /\ objects (env s') = objects (env s) in
  (forall v who,
     stored s (metadata_key s module project) = Some (MetaJson v who) ->
     exists s', opened (Some v) s')
  /\ (stored s (metadata_key s module project) = None -> exists s', opened None s').
Proof.
  intros Hd Hnd Hf opened.
  pose proof (open_project_run s module project fs1 Hd Hnd Hf) as R.
  split.
  - intros v who E. rewrite E in R. destruct R as (s' & R & Hs & Ho).
    exists s'. unfold opened. by rewrite R, Hs, Ho.
  - intros E. rewrite E in R. destruct R as (s' & R & Hs & Ho).
    exists s'. unfold opened. by rewrite R, Hs, Ho.
Qed.

Lemma open_project_reads_the_version_witness :
  let s := Scenario.fresh (Scenario.world_of Scenario.bucket3 ∅) in
  exists s',
    open_project "db" "prod" s = (inr tt, s')
    /\ default_module (self s') = Some "db" /\ default_project (self s') = Some "prod"
    /\ last_version (self s') = Some 3%Z
    /\ objects (env s') = objects (env s).
Proof.
  destruct (open_project_reads_the_version
              (Scenario.fresh (Scenario.world_of Scenario.bucket3 ∅)) "db" "prod"
              (fs (env (after (_ensure_local_path (Some "prod") (Some "db"))
                          (Scenario.fresh (Scenario.world_of Scenario.bucket3 ∅))))))
    as (H & _).
  - by_eval.
  - by_eval.
  - by_eval.
  - apply (H 3%Z "bob@desk"). by_eval.
Defined.

(** X12.  The version a [sync] writes is the version the next
    [open_project] reads.  A [sync] that had something to send, for an
    open project [m/p] with non-empty names, has returned; a provider
    on the bucket as that [sync] left it, with the same key prefix, on
    which the transport works and whose staging directory can be made,
    opens [m/p]: its [last_version] is the [last_version] of the
    provider that synced, one above what that one had before. *)
Theorem open_project_reads_the_synced_version s b s1 m p t fs1 :
  _deleted_project (self s) = false -> dirty (self s) ≠ ∅ ->
  default_module (self s) = Some m -> default_project (self s) = Some p ->
  m ≠ EmptyString -> p ≠ EmptyString ->
  sync s = (inr b, s1) ->
  prefix (self t) = prefix (self s) -> objects (env t) = objects (env s1) ->
  faults (env t) !! metadata_key t m p = None ->
  mkdir_parents true (fs (env t)) (p :: m :: local_dir (self t)) = inr fs1 ->
  is_dir fs1 ("meta.json" :: p :: m :: local_dir (self t)) = false ->
  exists t',
    open_project m p t = (inr tt, t')
    /\ last_version (self t') = last_version (self s1)
    /\ last_version (self t') = Some (next_version (last_version (self s))).
Proof.
  intros Hdel Hdirty Hm Hp Hmne Hpne Hs Hpf Hob Hf Hd Hnd.
  destruct (sync_inr s b s1 m p Hdel Hdirty Hm Hp Hmne Hpne Hs) as (S1 & _ & O1).
  pose proof (open_project_run t m p fs1 Hd Hnd Hf) as R.
  unfold stored, metadata_key in *. rewrite Hob, Hpf, O1 in R. cbn in R.
  destruct R as (t' & R & Ht & _). exists t'. by rewrite R, Ht, S1.
Qed.

Lemma open_project_reads_the_synced_version_witness :
  exists t',
    open_project "db" "prod"
      (Scenario.fresh (Scenario.world_of (objects (env (after sync Scenario.staged0))) ∅))
    = (inr tt, t')
    /\ last_version (self t') = last_version (self (after sync Scenario.staged0))
    /\ last_version (self t') = Some (next_version (last_version (self Scenario.staged0))).
Proof.
  apply (open_project_reads_the_synced_version Scenario.staged0 true
           (after sync Scenario.staged0) "db" "prod"
           (Scenario.fresh (Scenario.world_of (objects (env (after sync Scenario.staged0))) ∅))
           (fs (env (after (_ensure_local_path (Some "prod") (Some "db"))
                       (Scenario.fresh (Scenario.world_of ∅ ∅)))))).
  - by_eval.
  - eapply nonempty_by_elements. by_eval.
  - by_eval.
  - by_eval.
  - discriminate.
  - discriminate.
  - by_eval.
  - by_eval.
  - by_eval.
  - by_eval.
  - by_eval.
  - by_eval.
Defined.

(** ** Locators and listings of modules *)

(** X13.  [url_for] names the object under the key [_get_s3_key]
    gives: it is [url_for_project] followed by the file name, and
    [get_base_url] followed by module, project and file name.  When
    [get] raises [FileNotFoundError], the exception carries that
    locator. *)
Theorem url_for_names_the_object s fn project module pr mo :
  _get_project_and_module project module s = (inr (pr, mo), s) ->
  let u := "s3://" ++ bucket (self s) ++ "/" ++ prefix (self s)
             ++ mo ++ "/" ++ pr ++ "/" ++ fn in
  url_for fn project module s = (inr u, s)
  /\ (exists dir, url_for_project pr mo s = (inr dir, s) /\ u = dir ++ fn)
  /\ (exists base, get_base_url s = (inr base, s) /\ u = base ++ join "/" [mo; pr; fn])
  /\ (forall e s',
        get fn project module s = (inl e, s') -> is_FileNotFoundError e = true ->
        kind e = FileNotFoundError u).
Proof.
  intros Hctx u. apply gpm_inv in Hctx as (Hp & Hm & _).
  split; [|split; [|split]].
  - unfold url_for. rewrite bind_run. cbn.
    by rewrite bind_run, (get_s3_key_run fn project module s pr mo).
  - eexists. split; [reflexivity|]. subst u.
    by rewrite <- !(append_assoc _ _ fn).
  - eexists. split; [reflexivity|]. subst u. rewrite join_three.
    by rewrite <- !(append_assoc _ _ (mo ++ "/" ++ pr ++ "/" ++ fn)).
  - intros e s'. rewrite (get_run fn project module s pr mo Hp Hm). cbn zeta.
    destruct (mkdir_parents _ _ _) as [k|fs1] eqn:D.
    { intros [= <- <-]. destruct k; try done. by apply mkdir_parents_not_found in D. }
    destruct (path_exists fs1 _); [done|].
    destruct (download_file _ _ _) as [[e1|[]] s2]; [|done].
    intros [= <- <-] _. cbn. unfold s3_url. by rewrite join_three.
Qed.

Lemma url_for_names_the_object_witness :
  url_for "a" None None Scenario.opened3
  = (inr ("s3://" ++ bucket (self Scenario.opened3) ++ "/" ++ prefix (self Scenario.opened3)
            ++ "db" ++ "/" ++ "prod" ++ "/" ++ "a"), Scenario.opened3).
Proof.
  apply (url_for_names_the_object Scenario.opened3 "a" None None "prod" "db").
  by_eval.
Defined.

Lemma module_of_key_record (m p : string) :
  slash_free m = true -> slash_free p = true -> module_of_key (m ++ "/" ++ p) = Some m.
Proof.
  intros Fm Fp. unfold module_of_key.
  by rewrite split_all_first, split_all_slash_free.
Qed.

(** X14.  [get_modules], when the listing does not fail, returns in
    order, each once, the first parts of the keys of the listing that
    have two parts.  So a module is listed as soon as one of its
    projects has a record, whatever its files. *)
Theorem get_modules_lists_each_module_once s :
  list_fault (env s) = None ->
  exists l s',
    get_modules s = (inr l, s')
    /\ Sorted str_le l /\ NoDup l
    /\ (forall m, m ∈ l <-> exists key, key ∈ listing s /\ module_of_key key = Some m)
    /\ (forall m p, slash_free m = true -> slash_free p = true ->
                    m ++ "/" ++ p ∈ listing s -> m ∈ l).
Proof.
  intros Hl. unfold get_modules. rewrite bind_run, bucket_contents_run by done.
  cbn. eexists _, _. split; [reflexivity|].
  assert (forall m, m ∈ sorted (remove_dups (omap module_of_key (listing s)))
                    <-> exists key, key ∈ listing s /\ module_of_key key = Some m) as Hin.
  { intros m. unfold sorted. rewrite merge_sort_Permutation, elem_of_remove_dups.
    apply list_elem_of_omap. }
  split; [apply Sorted_merge_sort, _|]. split; [|split; [exact Hin|]].
  - unfold sorted. rewrite merge_sort_Permutation. apply NoDup_remove_dups.
  - intros m p Fm Fp Hk. apply Hin. exists (m ++ "/" ++ p).
    split; [done | by apply module_of_key_record].
Qed.

Lemma get_modules_lists_each_module_once_witness :
  exists l s',
    get_modules (Scenario.fresh (Scenario.world_of Scenario.bucket3 ∅)) = (inr l, s')
    /\ Sorted str_le l /\ NoDup l
    /\ (forall m, m ∈ l <->
          exists key, key ∈ listing (Scenario.fresh (Scenario.world_of Scenario.bucket3 ∅))
                      /\ module_of_key key = Some m)
    /\ (forall m p, slash_free m = true -> slash_free p = true ->
                    m ++ "/" ++ p ∈ listing (Scenario.fresh (Scenario.world_of Scenario.bucket3 ∅))
                    -> m ∈ l).
Proof.
  apply (get_modules_lists_each_module_once
           (Scenario.fresh (Scenario.world_of Scenario.bucket3 ∅))).
  reflexivity.
Defined.

End AWSMore.

(** ** The local provider: reading back, listings, deletion *)

Module LocalMore.
Import Local LocalFacts.

(** X15.  Without a project (or module) argument and without a default
    to stand for it, the methods of the local provider that address a
    file or a project raise the [ValueError] of [_get] and leave the
    filesystem as it was. *)
Theorem local_no_context_raises_before_anything_is_done s fn project module :
  resolve project (default_project (self s)) = None
  \/ resolve module (default_module (self s)) = None ->
  get fn project module s = (inl no_default, s)
  /\ get_rw fn project module s = (inl no_default, s)
  /\ delete fn project module s = (inl no_default, s)
  /\ get_files project module s = (inl no_default, s)
  /\ url_for fn project module s = (inl no_default, s)
  /\ (resolve module (default_module (self s)) = None ->
      get_projects module s = (inl no_default, s)
      /\ project_exists fn module s = (inl no_default, s)
      /\ delete_project fn module true s = (inl no_default, s)).
Proof.
  intros H.
  assert (_get_project_and_module project module s = (inl no_default, s)) as G.
  { rewrite local_gpm_run. destruct H as [-> | ->]; [done|]. by destruct (resolve project _). }
  split; [|split; [|split; [|split; [|split]]]].
  - unfold get. by rewrite bind_run, G.
  - unfold get_rw. by rewrite bind_run, G.
  - unfold delete. by rewrite bind_run, G.
  - unfold get_files. by rewrite bind_run, G.
  - unfold url_for. by rewrite bind_run, G.
  - intros Hm. split; [|split].
    + unfold get_projects. munfold. cbn.
      destruct module; [done|]. cbn in Hm. by rewrite Hm.
    + unfold project_exists. munfold. cbn.
      destruct module; [done|]. cbn in Hm. by rewrite Hm.
    + unfold delete_project. rewrite bind_run, local_gpm_run. cbn [resolve]. by rewrite Hm.
Qed.

Lemma local_no_context_raises_before_anything_is_done_witness :
  get "a" None (Some "db") Scenario.local1 = (inl no_default, Scenario.local1)
  /\ get_rw "a" None (Some "db") Scenario.local1 = (inl no_default, Scenario.local1).
Proof.
  destruct (local_no_context_raises_before_anything_is_done
              Scenario.local1 "a" None (Some "db")) as (H1 & H2 & _).
  - left. reflexivity.
  - exact (conj H1 H2).
Defined.

Lemma local_get_run fn project module s pr mo :
  resolve project (default_project (self s)) = Some pr ->
  resolve module (default_module (self s)) = Some mo ->
  get fn project module s =
  let p := fn :: pr :: mo :: base_dir (self s) in
  if path_exists (fs s) p then (inr p, s)
  else (inl (Exc (FileNotFoundError (path_str p)) None), s).
Proof.
  intros Hp Hm. unfold get. rewrite bind_run, local_gpm_run, Hp, Hm. cbn.
  unfold get_path. munfold. cbn. by destruct (path_exists _ _).
Qed.

Lemma ensure_dir_keeps d s s' :
  ensure_dir d s = (inr tt, s') ->
  (forall q n, node_at (fs s) q = Some n -> node_at (fs s') q = Some n)
  /\ (well_formed (fs s) -> well_formed (fs s')).
Proof.
  rewrite ensure_dir_run. destruct (path_exists (fs s) d) eqn:E; [by intros [= <-]|].
  destruct (mkdir false (fs s) d) as [k|fs1] eqn:K; [done|]. intros [= <-]. cbn. split.
  - intros q n. by eapply mkdir_keeps.
  - intros W. unfold mkdir in K. destruct (os_mkdir (fs s) d) as [k|fs2] eqn:O.
    + destruct k; cbn in K; done.
    + injection K as <-. apply os_mkdir_inr in O as (N & D & ->).
      by apply well_formed_insert.
Qed.

(** What a [get_rw] that returns has done. *)
Lemma local_get_rw_inr s fn project module p s' :
  get_rw fn project module s = (inr p, s') ->
  exists pr mo,
    resolve project (default_project (self s)) = Some pr
    /\ resolve module (default_module (self s)) = Some mo
    /\ p = fn :: pr :: mo :: base_dir (self s)
    /\ self s' = self s
    /\ present (fs s') (base_dir (self s))
    /\ present (fs s') (mo :: base_dir (self s))
    /\ present (fs s') (pr :: mo :: base_dir (self s))
    /\ present (fs s') p
    /\ (forall q n, node_at (fs s) q = Some n -> node_at (fs s') q = Some n)
    /\ (well_formed (fs s) -> well_formed (fs s')).
Proof.
  unfold get_rw. rewrite bind_run, local_gpm_run.
  destruct (resolve project _) as [pr|] eqn:Hp; [|done].
  destruct (resolve module _) as [mo|] eqn:Hm; [|done].
  rewrite bind_run. cbn. rewrite bind_run.
  set (base := base_dir (self s)) in *.
  destruct (ensure_dir base s) as [[e1|[]] s1] eqn:E1; [done|].
  pose proof (ensure_dir_keeps _ _ _ E1) as [K1 W1].
  apply ensure_dir_ok in E1 as (S1 & P1 & _).
  rewrite bind_run.
  destruct (ensure_dir (mo :: base) s1) as [[e2|[]] s2] eqn:E2; [done|].
  pose proof (ensure_dir_keeps _ _ _ E2) as [K2 W2].
  apply ensure_dir_ok in E2 as (S2 & P2 & _).
  rewrite bind_run.
  destruct (ensure_dir (pr :: mo :: base) s2) as [[e3|[]] s3] eqn:E3; [done|].
  pose proof (ensure_dir_keeps _ _ _ E3) as [K3 W3].
  apply ensure_dir_ok in E3 as (S3 & P3 & _).
  unfold get_path. munfold. cbn. unfold fs_step. munfold.
  rewrite S3, S2, S1. fold base.
  assert (forall q, present (fs s) q \/ present (fs s1) q \/ present (fs s2) q ->
                    present (fs s3) q) as Up.
  { intros q [[n H]|[[n H]|[n H]]]; exists n; auto. }
  destruct (path_exists (fs s3) (fn :: pr :: mo :: base)) eqn:X; cbn.
  - intros [= <- <-]. exists pr, mo. rewrite S3, S2, S1.
    repeat (split; [by auto 10|]). split; [by apply path_exists_present|]. split; [auto|auto].
  - destruct (touch (fs s3) _) as [k|fs4] eqn:T; [done|]. cbn. intros [= <- <-]. cbn.
    assert (node_at (fs s3) (fn :: pr :: mo :: base) = None) as N.
    { unfold path_exists in X. by destruct (node_at (fs s3) _). }
    unfold touch in T. rewrite N in T. apply create_inr in T as [D ->].
    assert (forall q n, node_at (fs s3) q = Some n ->
                        node_at (<[fn :: pr :: mo :: base := File (Raw EmptyString)]> (fs s3)) q
                        = Some n) as K4.
    { intros q n Hq. rewrite node_at_insert_ne; [done|]. intros <-. congruence. }
    exists pr, mo. rewrite S3, S2, S1.
    split; [done|]. split; [done|]. split; [done|]. split; [done|].
    split; [destruct (Up base) as [n Hn]; [auto|]; exists n; auto|].
    split; [destruct (Up (mo :: base)) as [n Hn]; [auto|]; exists n; auto|].
    split; [destruct P3 as [n Hn]; exists n; auto|].
    split; [eexists; by apply node_at_insert_eq|].
    split; [auto|]. intros W. apply well_formed_insert; auto.
Qed.

(** X16.  On the local provider a file opened for writing can be read
    back, and opening it again changes nothing.  Once [get_rw] has
    returned a path, [get] of the same file returns that path, a second
    [get_rw] returns it and leaves the filesystem as it is (so it does
    not empty the file), and whatever was on the filesystem before the
    first call is still there.  When every entry of the filesystem lay
    in a directory, [project_exists] and [module_exists] now answer
    true for the project and the module of the file. *)
Theorem local_get_rw_can_be_read_back s fn project module p s' :
  get_rw fn project module s = (inr p, s') ->
  get fn project module s' = (inr p, s')
  /\ get_rw fn project module s' = (inr p, s')
  /\ (forall q n, node_at (fs s) q = Some n -> node_at (fs s') q = Some n)
  /\ (well_formed (fs s) ->
      exists pr mo,
        p = fn :: pr :: mo :: base_dir (self s)
        /\ project_exists pr module s' = (inr true, s')
        /\ module_exists mo s' = (inr true, s')).
Proof.
  intros H. apply local_get_rw_inr in H
    as (pr & mo & Hp & Hm & -> & Hs & P0 & P1 & P2 & P3 & K & W).
  rewrite <- Hs in Hp, Hm. split; [|split; [|split]].
  - rewrite (local_get_run fn project module s' pr mo Hp Hm). cbn zeta.
    rewrite Hs. by rewrite (proj2 (path_exists_present _ _) P3).
  - unfold get_rw. rewrite bind_run, local_gpm_run, Hp, Hm. cbn.
    rewrite bind_run. cbn. rewrite !bind_run, !ensure_dir_run, Hs.
    rewrite (proj2 (path_exists_present _ _) P0). cbn.
    rewrite bind_run, ensure_dir_run, (proj2 (path_exists_present _ _) P1). cbn.
    rewrite bind_run, ensure_dir_run, (proj2 (path_exists_present _ _) P2). cbn.
    unfold get_path. munfold. cbn. rewrite Hs.
    by rewrite (proj2 (path_exists_present _ _) P3).
  - exact K.
  - intros Wf. specialize (W Wf). exists pr, mo. split; [done|].
    pose proof (well_formed_parent _ _ _ W P3) as D2.
    assert (is_dir (fs s') (mo :: base_dir (self s)) = true) as D1.
    { apply (well_formed_parent _ pr); [done|]. exists Dir. by apply is_dir_node. }
    split.
    + unfold project_exists. munfold. cbn.
      destruct module as [m|]; cbn in Hm |- *.
      * injection Hm as ->. by rewrite Hs, D2.
      * rewrite Hm. cbn. by rewrite Hs, D2.
    + unfold module_exists. munfold. cbn. by rewrite Hs, D1.
Qed.

(** The run [local0]: [state.json] of [db/prod], written for the first
    time. *)
Lemma local_get_rw_can_be_read_back_witness :
  let s' := (get_rw "state.json" (Some "prod") (Some "db") Scenario.local0).2 in
  get "state.json" (Some "prod") (Some "db") s'
  = (inr ["state.json"; "prod"; "db"; "state"; "srv"], s')
  /\ get_rw "state.json" (Some "prod") (Some "db") s'
     = (inr ["state.json"; "prod"; "db"; "state"; "srv"], s').
Proof.
  destruct (local_get_rw_can_be_read_back Scenario.local0 "state.json"
              (Some "prod") (Some "db") ["state.json"; "prod"; "db"; "state"; "srv"]
              (get_rw "state.json" (Some "prod") (Some "db") Scenario.local0).2)
    as (H1 & H2 & _).
  - by_eval.
  - exact (conj H1 H2).
Defined.

(** ** Deleting a file *)

(** X17.  [delete] on the local provider.  A file that is there is
    removed, nothing else is touched, and a [get] of it then raises
    [FileNotFoundError].  A file that is not there makes [delete] raise
    [FileNotFoundError], and a directory in its place
    [IsADirectoryError]; in both cases the filesystem is as it was. *)
Theorem local_delete_removes_the_file s fn project module pr mo :
  _get_project_and_module project module s = (inr (pr, mo), s) ->
  let p := fn :: pr :: mo :: base_dir (self s) in
  (forall c,
     node_at (fs s) p = Some (File c) ->
     let s' := set_fs (base.delete p (fs s)) s in
     delete fn project module s = (inr tt, s')
     /\ get fn project module s' = (inl (Exc (FileNotFoundError (path_str p)) None), s'))
  /\ (node_at (fs s) p = None ->
      delete fn project module s = (inl (Exc (FileNotFoundError (path_str p)) None), s))
  /\ (node_at (fs s) p = Some Dir ->
      delete fn project module s = (inl (Exc (IsADirectoryError (path_str p)) None), s)).
Proof.
  intros Hctx p. rewrite local_gpm_run in Hctx.
  destruct (resolve project _) as [pr'|] eqn:Hp; [|done].
  destruct (resolve module _) as [mo'|] eqn:Hm; [|done].
  injection Hctx as -> ->.
  assert (delete fn project module s
          = match unlink (fs s) p with
            | inl k => (inl (Exc k None), s)
            | inr f => (inr tt, set_fs f s)
            end) as ->.
  { unfold delete. rewrite bind_run, local_gpm_run, Hp, Hm. cbn.
    unfold fs_step. munfold. cbn. fold p. by destruct (unlink (fs s) p). }
  unfold unlink. split; [|split].
  - intros c N. rewrite N. split; [done|].
    rewrite (local_get_run fn project module _ pr mo) by done. cbn. fold p.
    rewrite (path_exists_false (base.delete p (fs s)) p); [done|].
    unfold p. rewrite node_at_cons. apply lookup_delete_eq.
  - by intros ->.
  - by intros ->.
Qed.

(** After the first write of [state.json] on [local0]. *)
Lemma local_delete_removes_the_file_witness :
  let s := (get_rw "state.json" (Some "prod") (Some "db") Scenario.local0).2 in
  let p := "state.json" :: "prod" :: "db" :: base_dir (self s) in
  let s' := set_fs (base.delete p (fs s)) s in
  delete "state.json" (Some "prod") (Some "db") s = (inr tt, s')
  /\ get "state.json" (Some "prod") (Some "db") s'
     = (inl (Exc (FileNotFoundError (path_str p)) None), s').
Proof.
  destruct (local_delete_removes_the_file
              (get_rw "state.json" (Some "prod") (Some "db") Scenario.local0).2
              "state.json" (Some "prod") (Some "db") "prod" "db") as (H & _ & _).
  - by_eval.
  - apply (H (Raw EmptyString)). by_eval.
Defined.

(** ** Listings *)

(** X18.  [get_files] on the local provider never raises once the
    context is there: it returns, in order and each once, the names of
    the entries of the project directory, and the empty list when the
    project has no directory. *)
Theorem local_get_files_lists_the_directory s project module pr mo :
  _get_project_and_module project module s = (inr (pr, mo), s) ->
  let d := pr :: mo :: base_dir (self s) in
  exists l,
    get_files project module s = (inr l, s)
    /\ Sorted str_le l /\ NoDup l
    /\ (forall x, x ∈ l <-> is_dir (fs s) d = true /\ is_Some (fs s !! (x :: d)))
    /\ (is_dir (fs s) d = false -> l = []).
Proof.
  intros Hctx d. subst d. unfold get_files. rewrite bind_run, Hctx. cbn.
  eexists. split; [reflexivity|]. unfold sorted, glob_star.
  split; [apply Sorted_merge_sort, _|]. split; [|split].
  - rewrite merge_sort_Permutation.
    destruct (is_dir (fs s) (pr :: mo :: base_dir (self s))); [|constructor].
    apply NoDup_children.
  - intros x. rewrite merge_sort_Permutation.
    destruct (is_dir (fs s) (pr :: mo :: base_dir (self s))).
    + rewrite elem_of_children. tauto.
    + split; [intros H; by apply elem_of_nil in H | by intros [? _]].
  - by intros ->.
Qed.

Lemma local_get_files_lists_the_directory_witness :
  exists l,
    get_files (Some "prod") (Some "db") Scenario.local0 = (inr l, Scenario.local0)
    /\ Sorted str_le l /\ NoDup l
    /\ (forall x, x ∈ l <->
          is_dir (fs Scenario.local0) ("prod" :: "db" :: base_dir (self Scenario.local0)) = true
          /\ is_Some (fs Scenario.local0
                        !! (x :: "prod" :: "db" :: base_dir (self Scenario.local0))))
    /\ (is_dir (fs Scenario.local0) ("prod" :: "db" :: base_dir (self Scenario.local0)) = false
        -> l = []).
Proof.
  apply (local_get_files_lists_the_directory Scenario.local0 (Some "prod") (Some "db")
           "prod" "db").
  reflexivity.
Defined.

(** X19.  On a filesystem in which every entry lies in a directory,
    [project_exists] answers true for every project [get_projects]
    lists, and every project with a plain name for which
    [project_exists] answers true is listed; [get_modules] and
    [module_exists] agree in the same way. *)
Theorem local_listings_agree_with_exists s module mo :
  well_formed (fs s) ->
  resolve module (default_module (self s)) = Some mo ->
  (exists l, get_projects module s = (inr l, s)
             /\ (forall x, x ∈ l -> project_exists x module s = (inr true, s))
             /\ (forall x, plain x = true ->
                            project_exists x module s = (inr true, s) -> x ∈ l))
  /\ (exists l, get_modules s = (inr l, s)
                /\ (forall x, x ∈ l -> module_exists x s = (inr true, s))
                /\ (forall x, plain x = true ->
                               module_exists x s = (inr true, s) -> x ∈ l)).
Proof.
  intros W Hm.
  assert (forall d x,
            x ∈ List.filter (fun x => is_dir (fs s) (x :: d)) (glob_star (fs s) d)
            <-> is_dir (fs s) (x :: d) = true) as Hin.
  { intros d x. rewrite list_elem_of_In, filter_In, <- list_elem_of_In. split; [tauto|].
    intros D. split; [|done]. unfold glob_star.
    rewrite (well_formed_parent (fs s) x d W).
    - apply elem_of_children. exists Dir. rewrite <- node_at_cons. by apply is_dir_node.
    - exists Dir. by apply is_dir_node. }
  split.
  - unfold get_projects, project_exists. munfold. cbn.
    assert (forall A (k : string -> state -> (exn + A) * state),
              (let (r, s1) := _get [module; default_module (self s)] s in
               match r with inl e => (inl e, s1) | inr m => k m s1 end) = k mo s) as G.
    { intros A k. destruct module as [m|]; cbn in Hm |- *.
      - by injection Hm as ->.
      - rewrite Hm. done. }
    rewrite G. eexists. split; [reflexivity|]. split.
    + intros x. rewrite G, Hin. by intros ->.
    + intros x _. rewrite G, Hin. by intros [= ->].
  - unfold get_modules, module_exists. munfold. cbn.
    eexists. split; [reflexivity|]. split.
    + intros x. rewrite Hin. by intros ->.
    + intros x _. rewrite Hin. by intros [= ->].
Qed.

Lemma local_listings_agree_with_exists_witness :
  (exists l, get_projects (Some "db") Scenario.local1 = (inr l, Scenario.local1)
             /\ (forall x, x ∈ l ->
                   project_exists x (Some "db") Scenario.local1 = (inr true, Scenario.local1))
             /\ (forall x, plain x = true ->
                   project_exists x (Some "db") Scenario.local1 = (inr true, Scenario.local1) ->
                   x ∈ l))
  /\ (exists l, get_modules Scenario.local1 = (inr l, Scenario.local1)
                /\ (forall x, x ∈ l -> module_exists x Scenario.local1
                                       = (inr true, Scenario.local1))
                /\ (forall x, plain x = true ->
                               module_exists x Scenario.local1 = (inr true, Scenario.local1) ->
                               x ∈ l)).
Proof.
  apply (local_listings_agree_with_exists Scenario.local1 (Some "db") "db").
  - apply (bool_decide_unpack _). by_eval.
  - reflexivity.
Defined.

(** ** Locators *)

(** X20.  [url_for] on the local provider takes the pair that
    [_get_project_and_module] returns the other way round: the path it
    names has the project directly under the base directory and the
    module under the project, whereas [get], [get_rw] and
    [url_for_project] have the module under the base directory and the
    project under the module. *)
Theorem local_url_for_swaps_module_and_project s fn project module pr mo :
  _get_project_and_module project module s = (inr (pr, mo), s) ->
  url_for fn project module s = (inr (path_str (fn :: mo :: pr :: base_dir (self s))), s)
  /\ url_for_project pr mo s = (inr (path_str (pr :: mo :: base_dir (self s))), s)
  /\ (forall p s', get fn project module s = (inr p, s') ->
                   p = fn :: pr :: mo :: base_dir (self s))
  /\ (forall p s', get_rw fn project module s = (inr p, s') ->
                   p = fn :: pr :: mo :: base_dir (self s)).
Proof.
  intros Hctx. split; [|split; [|split]].
  - unfold url_for. by rewrite bind_run, Hctx.
  - reflexivity.
  - intros p s'. rewrite local_gpm_run in Hctx.
    destruct (resolve project _) as [pr'|] eqn:Hp; [|done].
    destruct (resolve module _) as [mo'|] eqn:Hm; [|done].
    injection Hctx as -> ->.
    rewrite (local_get_run fn project module s pr mo Hp Hm). cbn zeta.
    destruct (path_exists _ _); [by intros [= <- _] | done].
  - intros p s' H. apply local_get_rw_inr in H as (pr' & mo' & Hp & Hm & -> & _).
    rewrite local_gpm_run, Hp, Hm in Hctx. by injection Hctx as -> ->.
Qed.

Lemma local_url_for_swaps_module_and_project_witness :
  url_for "state.json" (Some "prod") (Some "db") Scenario.local1
  = (inr (path_str ("state.json" :: "db" :: "prod" :: base_dir (self Scenario.local1))),
     Scenario.local1)
  /\ url_for_project "prod" "db" Scenario.local1
     = (inr (path_str ("prod" :: "db" :: base_dir (self Scenario.local1))), Scenario.local1).
Proof.
  destruct (local_url_for_swaps_module_and_project Scenario.local1 "state.json"
              (Some "prod") (Some "db") "prod" "db") as (H1 & H2 & _).
  - reflexivity.
  - exact (conj H1 H2).
Defined.

(** ** Deleting a project *)

Lemma rmtree_elsewhere fs p fs' q :
  rmtree fs p = inr fs' -> ~ p `suffix_of` q -> node_at fs' q = node_at fs q.
Proof.
  unfold rmtree. destruct (node_at fs p) as [[|c]|]; [|done..].
  intros [= <-] Hq. destruct q as [|x q]; [done|]. rewrite !node_at_cons.
  destruct (fs !! (x :: q)) as [n|] eqn:E.
  - apply map_lookup_filter_Some_2; [done|]. cbn. unfold below.
    by rewrite bool_decide_eq_false_2.
  - apply map_lookup_filter_None_2. by left.
Qed.

(** X21.  [delete_project] on the local provider, for a project that
    has a directory.  With [recursive] it removes the directory and all
    that lies below it, and nothing else.  Without [recursive], and
    with an entry in the directory, it raises [OSError] and removes
    nothing. *)
Theorem local_delete_project_on_a_directory s project module mo :
  resolve module (default_module (self s)) = Some mo ->
  let d := project :: mo :: base_dir (self s) in
  node_at (fs s) d = Some Dir ->
  (exists s',
     delete_project project module true s = (inr tt, s')
     /\ self s' = self s
     /\ (forall q, d `suffix_of` q -> node_at (fs s') q = None)
     /\ (forall q, ~ d `suffix_of` q -> node_at (fs s') q = node_at (fs s) q))
  /\ (children (fs s) d ≠ [] ->
      delete_project project module false s = (inl (Exc (OSError (path_str d)) None), s)).
Proof.
  intros Hm d N. split.
  - unfold delete_project. rewrite bind_run, local_gpm_run. cbn [resolve]. rewrite Hm. cbn.
    unfold fs_step. munfold. cbn. fold d.
    destruct (rmtree (fs s) d) as [k|fs1] eqn:R.
    { unfold rmtree in R. by rewrite N in R. }
    eexists. split; [reflexivity|]. cbn. split; [done|]. split.
    + intros q Hq. by eapply rmtree_gone; [|exact R|].
    + intros q Hq. by eapply rmtree_elsewhere.
  - intros C. unfold delete_project. rewrite bind_run, local_gpm_run. cbn [resolve].
    rewrite Hm. cbn. unfold fs_step. munfold. cbn. fold d. unfold rmdir. rewrite N.
    by destruct (children (fs s) d).
Qed.

(** After the first write of [state.json] on [local0], the project
    directory holds one file. *)
Lemma local_delete_project_on_a_directory_witness :
  let s := (get_rw "state.json" (Some "prod") (Some "db") Scenario.local0).2 in
  let d := "prod" :: "db" :: base_dir (self s) in
  delete_project "prod" (Some "db") false s = (inl (Exc (OSError (path_str d)) None), s).
Proof.
  destruct (local_delete_project_on_a_directory
              (get_rw "state.json" (Some "prod") (Some "db") Scenario.local0).2
              "prod" (Some "db") "db") as [_ H].
  - reflexivity.
  - by_eval.
  - apply H. vm_compute. discriminate.
Defined.

End LocalMore.
